(** * The ABA (ping-pong) message codec and engine of the v2 ball OApp

    A shallow embedding of
      - [v2/ball-v2/contracts/libs/Uint256MsgCodec.sol]
        (library [Uint256MsgCodec])
      - [v2-Executor_NoOptions_Error/ball-v2/contracts/MyOApp.sol]
        (contract [MyOApp])
    together with the part of the Solidity ABI coder (v2) that the two
    files call through [abi.encode] and [abi.decode].

    Conventions
      - [bytes] is a list of [Byte.byte];
      - a [uintN] is a [Z]; where the EVM or Solidity wraps or checks,
        the wrap-around or the check is written out;
      - a call that reverts returns [Revert]; the state changes of a
        reverted call are discarded by [commit]. *)

From Stdlib Require Import ZArith List Lia Bool.
From Stdlib.Strings Require Import Byte.
Import ListNotations.
Local Open Scope Z_scope.

(** ** EVM words and byte strings *)

Module Evm.

Definition bytes := list byte.

Definition two256 : Z := 2 ^ 256.
Definition max_uint64 : Z := 2 ^ 64 - 1.      (* 0xffffffffffffffff *)
Definition max_uint128 : Z := 2 ^ 128 - 1.
Definition max_uint256 : Z := 2 ^ 256 - 1.

(** 256-bit [add]: wraps. *)
Definition add256 (a b : Z) : Z := (a + b) mod two256.

(** Two's complement reading of a 256-bit word, as [slt] uses it. *)
Definition signed256 (a : Z) : Z := if a <? 2 ^ 255 then a else a - two256.

Definition slt256 (a b : Z) : bool := signed256 a <? signed256 b.
Definition gt256 (a b : Z) : bool := b <? a.

Definition Z_of_byte (b : byte) : Z := Z.of_N (Byte.to_N b).

Definition byte_of_Z (z : Z) : byte :=
  match Byte.of_N (Z.to_N (z mod 256)) with
  | Some b => b
  | None => x00
  end.

(** Big-endian value of a byte string. *)
Definition be_value (bs : bytes) : Z :=
  fold_left (fun acc b => acc * 256 + Z_of_byte b) bs 0.

(** The [n] low-order bytes of [v], most significant first. *)
Fixpoint be_bytes (n : nat) (v : Z) : bytes :=
  match n with
  | O => []
  | S k => be_bytes k (v / 256) ++ [byte_of_Z (v mod 256)]
  end.

Definition zeros (n : nat) : bytes := repeat x00 n.

(** [calldataload(p)]: the 32-byte word at position [p]; bytes past the
    end of the data read as zero. *)
Definition calldataload (data : bytes) (p : Z) : Z :=
  be_value (firstn 32 (skipn (Z.to_nat p) data ++ zeros 32)).

(** [calldatacopy]: [n] bytes from position [p], zero past the end. *)
Definition calldatacopy (data : bytes) (p n : Z) : bytes :=
  firstn (Z.to_nat n) (skipn (Z.to_nat p) data ++ zeros (Z.to_nat n)).

Definition len (data : bytes) : Z := Z.of_nat (length data).

(** Why a call stopped. *)
Inductive Error : Type :=
| Panic (code : Z)          (* Panic(uint256): 0x11 arithmetic, 0x41 allocation *)
| AbiDecodeError            (* revert of the generated ABI decoder *)
| InvalidMsgLength          (* error InvalidMsgLength() *)
| ExternalRevert.           (* a called contract reverted *)

Inductive Result (A : Type) : Type :=
| Ok (a : A)
| Revert (e : Error).
Arguments Ok {A} a.
Arguments Revert {A} e.

Definition rbind {A B} (r : Result A) (f : A -> Result B) : Result B :=
  match r with
  | Ok a => f a
  | Revert e => Revert e
  end.

(** Checked arithmetic of Solidity >= 0.8. *)
Definition checked_sub (a b : Z) : Result Z :=
  if a <? b then Revert (Panic 0x11) else Ok (a - b).

Definition checked_add (max : Z) (a b : Z) : Result Z :=
  if max <? a + b then Revert (Panic 0x11) else Ok (a + b).

End Evm.
Import Evm.

Notation "x <-? r ; k" := (rbind r (fun x => k))
  (at level 61, r at next level, right associativity).

(** ** The ABI coder, for the two tuples the codec uses

    The decoders follow the functions solc generates for [abi.decode] on
    calldata ([abi_decode_tuple_...], [abi_decode_t_bytes_memory_ptr],
    [abi_decode_available_length_t_bytes_memory_ptr],
    [validator_revert_t_uint16]).  Positions are relative to the start of
    the decoded buffer: [headStart] is 0 and [dataEnd] is its length.  The
    memory the result is copied to is not modelled beyond the size check
    of its allocation. *)

Module Abi.

(** Number of zero bytes that bring [n] bytes up to a multiple of 32. *)
Definition padding (n : nat) : nat := ((32 - n mod 32) mod 32)%nat.

(** [abi.encode(uint256)] *)
Definition encode_uint256 (v : Z) : bytes := be_bytes 32 v.

(** [abi.encode(uint256, uint16, bytes)]: three head slots (value, type,
    offset of the tail = 0x60), then the tail: length, data, zero
    padding up to a multiple of 32. *)
Definition encode_uint256_uint16_bytes (v t : Z) (b : bytes) : bytes :=
  be_bytes 32 v ++ be_bytes 32 t ++ be_bytes 32 96
    ++ be_bytes 32 (len b) ++ b ++ zeros (padding (length b)).

(** [abi.decode(data, (uint256))]:
    [if slt(sub(dataEnd, headStart), 32) { revert }], then the word. *)
Definition decode_uint256 (data : bytes) : Result Z :=
  if slt256 (len data) 32 then Revert AbiDecodeError
  else Ok (calldataload data 0).

(** [validator_revert_t_uint16]: the slot must equal its 16-bit cleanup. *)
Definition decode_t_uint16 (data : bytes) (p : Z) : Result Z :=
  let value := calldataload data p in
  if value =? Z.land value 0xffff then Ok value else Revert AbiDecodeError.

(** [abi_decode_available_length_t_bytes_memory_ptr(src, length, end)]:
    the allocation size is checked first (Panic 0x41 above 2^64 - 1),
    then [if gt(add(src, length), end) { revert }], then the copy. *)
Definition decode_available_length_bytes (data : bytes) (src length : Z)
  : Result bytes :=
  if gt256 length max_uint64 then Revert (Panic 0x41)
  else if gt256 (add256 src length) (len data) then Revert AbiDecodeError
  else Ok (calldatacopy data src length).

(** [abi_decode_t_bytes_memory_ptr(offset, end)]:
    [if iszero(slt(add(offset, 0x1f), end)) { revert }], the length word,
    then the data. *)
Definition decode_t_bytes (data : bytes) (offset : Z) : Result bytes :=
  if negb (slt256 (add256 offset 0x1f) (len data)) then Revert AbiDecodeError
  else
    let length := calldataload data offset in
    decode_available_length_bytes data (add256 offset 0x20) length.

(** [abi.decode(data, (uint256, uint16, bytes))]:
    [if slt(sub(dataEnd, headStart), 96) { revert }]; slot 0 is the
    value, slot 1 the validated uint16, slot 2 the offset of the tail,
    which must fit 64 bits and is followed as it is. *)
Definition decode_uint256_uint16_bytes (data : bytes)
  : Result (Z * Z * bytes) :=
  if slt256 (len data) 96 then Revert AbiDecodeError
  else
    let value0 := calldataload data 0 in
    value1 <-? decode_t_uint16 data 32 ;
    let offset := calldataload data 64 in
    if gt256 offset max_uint64 then Revert AbiDecodeError
    else
      value2 <-? decode_t_bytes data offset ;
      Ok (value0, value1, value2).

End Abi.

(** ** [library Uint256MsgCodec] *)

Module Uint256MsgCodec.

Definition ABA_TYPE : Z := 2.

(** [encode(uint256 _value)] *)
Definition encode (_value : Z) : bytes := Abi.encode_uint256 _value.

(** [decode(bytes calldata _msg)] *)
Definition decode (_msg : bytes) : Result Z :=
  if negb (len _msg =? 32) then Revert InvalidMsgLength
  else Abi.decode_uint256 (firstn 32 _msg).

(** [encodeABA(uint256 _value, bytes calldata _returnOptions)] *)
Definition encodeABA (_value : Z) (_returnOptions : bytes) : bytes :=
  Abi.encode_uint256_uint16_bytes _value ABA_TYPE _returnOptions.

(** [decodeABA(bytes calldata _msg)]: (value, msgType, returnOptions) *)
Definition decodeABA (_msg : bytes) : Result (Z * Z * bytes) :=
  if len _msg =? 32 then
    value <-? Abi.decode_uint256 _msg ;
    Ok (value, 0, [])
  else
    Abi.decode_uint256_uint16_bytes _msg.

End Uint256MsgCodec.

(** ** [contract MyOApp] *)

Module MyOApp.
Import Uint256MsgCodec.

Definition address := Z.

Record MessagingFee : Type := { nativeFee : Z; lzTokenFee : Z }.

Record Origin : Type := { srcEid : Z; sender : bytes; nonce : Z }.

(** [msg.sender] and [msg.value] of the running call. *)
Record Msg : Type := { msg_sender : address; msg_value : Z }.

Inductive Event : Type :=
| BallServed (sender : address) (dstEid : Z) (oldBallValue newBallValue : Z)
| BallReceived (executor : address) (oldBallValue newBallValue : Z)
| ReturnMessageSent (dstEid : Z) (ballValue : Z).

(** The arguments of [_lzSend] and of [_quote]. *)
Record SendRequest : Type :=
  { s_dstEid : Z; s_message : bytes; s_options : bytes;
    s_fee : MessagingFee; s_refundAddress : address }.

Record QuoteRequest : Type :=
  { q_dstEid : Z; q_message : bytes; q_options : bytes;
    q_payInLzToken : bool }.

(** A call handed to the transport. *)
Inductive Call : Type :=
| CallSend (r : SendRequest)
| CallQuote (q : QuoteRequest).

Definition call_dstEid (c : Call) : Z :=
  match c with CallSend r => s_dstEid r | CallQuote q => q_dstEid q end.
Definition call_message (c : Call) : bytes :=
  match c with CallSend r => s_message r | CallQuote q => q_message q end.
Definition call_options (c : Call) : bytes :=
  match c with CallSend r => s_options r | CallQuote q => q_options q end.

Definition is_send (c : Call) : bool :=
  match c with CallSend _ => true | CallQuote _ => false end.

(** The outbound sends among the calls. *)
Definition sends (cs : list Call) : list Call := filter is_send cs.

(** [uint256 public ball = 100000000000000000000] *)
Definition initial_ball : Z := 100000000000000000000.

Section Engine.

(** The inherited and imported code the contract calls: the endpoint
    behind [OAppSender._lzSend] and [OAppSender._quote] with its own
    state, [OAppOptionsType3.combineOptions], and the two
    [OptionsBuilder] functions.  [None] is a revert of the callee. *)
Context {Transport Receipt : Type}.
Variable _lzSend_ext : SendRequest -> Transport -> option (Receipt * Transport).
Variable _quote_ext : QuoteRequest -> Transport -> option MessagingFee.
Variable combineOptions : Z -> Z -> bytes -> option bytes.
Variable newOptions : bytes.
Variable addExecutorLzReceiveOption : bytes -> Z -> Z -> bytes.
(** [address(this)] *)
Variable this : address.

Record World : Type :=
  { ball : Z; events : list Event; transport : Transport }.

(** What a call did: the calls it handed to the transport, in order
    (kept for a call that reverts, to tell how far it got), and its
    result with the new state. *)
Record Outcome (A : Type) : Type :=
  { issued : list Call; result : Result (A * World) }.
Arguments issued {A} o.
Arguments result {A} o.

Definition M (A : Type) : Type := World -> Outcome A.

Definition ret {A} (a : A) : M A :=
  fun w => {| issued := []; result := Ok (a, w) |}.

Definition bind {A B} (m : M A) (f : A -> M B) : M B :=
  fun w =>
    let o := m w in
    match result o with
    | Ok (a, w') =>
        let o' := f a w' in
        {| issued := issued o ++ issued o'; result := result o' |}
    | Revert e => {| issued := issued o; result := Revert e |}
    end.

Definition lift {A} (r : Result A) : M A :=
  fun w =>
    {| issued := [];
       result := match r with Ok a => Ok (a, w) | Revert e => Revert e end |}.

Definition get_ball : M Z :=
  fun w => {| issued := []; result := Ok (ball w, w) |}.

Definition set_ball (v : Z) : M unit :=
  fun w =>
    {| issued := [];
       result := Ok (tt, {| ball := v; events := events w;
                            transport := transport w |}) |}.

Definition emit (e : Event) : M unit :=
  fun w =>
    {| issued := [];
       result := Ok (tt, {| ball := ball w; events := events w ++ [e];
                            transport := transport w |}) |}.

(** The state of the contract once the call is over: a revert undoes
    every change of the call. *)
Definition commit {A} (w : World) (o : Outcome A) : World :=
  match result o with
  | Ok (_, w') => w'
  | Revert _ => w
  end.

Local Notation "x <- m ;; k" := (bind m (fun x => k))
  (at level 61, m at next level, right associativity).
Local Notation "m ;;; k" := (bind m (fun _ => k))
  (at level 61, right associativity).

(** [_lzSend(_dstEid, _message, _options, _fee, _refundAddress)] *)
Definition _lzSend (_dstEid : Z) (_message _options : bytes)
    (_fee : MessagingFee) (_refundAddress : address) : M Receipt :=
  fun w =>
    let req := {| s_dstEid := _dstEid; s_message := _message;
                  s_options := _options; s_fee := _fee;
                  s_refundAddress := _refundAddress |} in
    {| issued := [CallSend req];
       result :=
         match _lzSend_ext req (transport w) with
         | Some (receipt, t') =>
             Ok (receipt, {| ball := ball w; events := events w;
                             transport := t' |})
         | None => Revert ExternalRevert
         end |}.

(** [_quote(_dstEid, _message, _options, _payInLzToken)] *)
Definition _quote (_dstEid : Z) (_message _options : bytes)
    (_payInLzToken : bool) : M MessagingFee :=
  fun w =>
    let q := {| q_dstEid := _dstEid; q_message := _message;
                q_options := _options;
                q_payInLzToken := _payInLzToken |} in
    {| issued := [CallQuote q];
       result :=
         match _quote_ext q (transport w) with
         | Some fee => Ok (fee, w)
         | None => Revert ExternalRevert
         end |}.

(** [_combineOptionsCalldata]: [combineOptions] on calldata. *)
Definition _combineOptionsCalldata (_dstEid _msgType : Z)
    (_options : bytes) : M bytes :=
  fun w =>
    {| issued := [];
       result :=
         match combineOptions _dstEid _msgType _options with
         | Some o => Ok (o, w)
         | None => Revert ExternalRevert
         end |}.

(** [_combineOptionsMemory]: the external self-call
    [this._combineOptionsCalldata(...)] that turns memory bytes into
    calldata. *)
Definition _combineOptionsMemory (_dstEid _msgType : Z)
    (_options : bytes) : M bytes :=
  let tempOptions := _options in
  _combineOptionsCalldata _dstEid _msgType tempOptions.

(** [send(_dstEid, _returnOptions, _returnGasEstimate, _options)] *)
Definition send (msg : Msg) (_dstEid : Z) (_returnOptions : bytes)
    (_returnGasEstimate : Z) (_options : bytes) : M Receipt :=
  oldBall <- get_ball ;;
  newBall <- lift (checked_sub oldBall 1) ;;
  set_ball newBall ;;;
  b <- get_ball ;;
  emit (BallServed (msg_sender msg) _dstEid oldBall b) ;;;
  b <- get_ball ;;
  let _message := encodeABA b _returnOptions in
  gas <- lift (checked_add max_uint128 180000 _returnGasEstimate) ;;
  let abaOptions := addExecutorLzReceiveOption newOptions gas 0 in
  let packedOptions := abaOptions ++ _options in
  combinedOptions <-
    _combineOptionsMemory _dstEid ABA_TYPE packedOptions ;;
  _lzSend _dstEid _message combinedOptions
    {| nativeFee := msg_value msg; lzTokenFee := 0 |} (msg_sender msg).

(** [quote(_dstEid, _returnOptions, _returnGasEstimate, _options,
    _payInLzToken)] *)
Definition quote (_dstEid : Z) (_returnOptions : bytes)
    (_returnGasEstimate : Z) (_options : bytes) (_payInLzToken : bool)
  : M MessagingFee :=
  b <- get_ball ;;
  tempBall <- lift (checked_sub b 1) ;;
  let abaMessage := encodeABA tempBall _returnOptions in
  gas <- lift (checked_add max_uint128 180000 _returnGasEstimate) ;;
  let abaOptions := addExecutorLzReceiveOption newOptions gas 0 in
  let packedOptions := abaOptions ++ _options in
  combinedOptions <-
    _combineOptionsMemory _dstEid ABA_TYPE packedOptions ;;
  _quote _dstEid abaMessage combinedOptions _payInLzToken.

(** [_lzReceive(_origin, _guid, payload, _executor, _extraData)] *)
Definition _lzReceive (msg : Msg) (_origin : Origin) (_guid : bytes)
    (payload : bytes) (_executor : address) (_extraData : bytes)
  : M unit :=
  decoded <- lift (decodeABA payload) ;;
  let '(value, msgType, returnOptions) := decoded in
  oldBall <- get_ball ;;
  set_ball value ;;;
  b <- get_ball ;;
  emit (BallReceived _executor oldBall b) ;;;
  if msgType =? ABA_TYPE then
    b <- get_ball ;;
    newBall <- lift (checked_sub b 1) ;;
    set_ball newBall ;;;
    b <- get_ball ;;
    let returnMessage := encode b in
    _lzSend (srcEid _origin) returnMessage returnOptions
      {| nativeFee := msg_value msg; lzTokenFee := 0 |} this ;;;
    b <- get_ball ;;
    emit (ReturnMessageSent (srcEid _origin) b)
  else ret tt.

(** For the statements below: the request that answers an ABA message
    which carried [v] with return options [r] ... *)
Definition reply (msg : Msg) (origin : Origin) (v : Z) (r : bytes)
  : SendRequest :=
  {| s_dstEid := srcEid origin; s_message := encode (v - 1);
     s_options := r;
     s_fee := {| nativeFee := msg_value msg; lzTokenFee := 0 |};
     s_refundAddress := this |}.

(** ... and the caller options behind an lzReceive option of
    [180000 + g] gas and no native drop. *)
Definition packed (g : Z) (opts : bytes) : bytes :=
  addExecutorLzReceiveOption newOptions (180000 + g) 0 ++ opts.

End Engine.

Arguments issued {Transport A} o.
Arguments result {Transport A} o.

End MyOApp.

(** ** An endpoint to run the engine on

    A transport that charges a fixed fee and counts the packets it took,
    no enforced options, and the type-3 option layout of LayerZero's
    [OptionsBuilder].  It stands in for the deployed endpoint when the
    engine is evaluated on concrete inputs. *)

Module Sample.
Import MyOApp.

(** The endpoint takes a send when the native fee covers [price]. *)
Definition lzSend (price : Z) (req : SendRequest) (sent : Z)
  : option (Z * Z) :=
  if nativeFee (s_fee req) <? price then None else Some (sent + 1, sent + 1).

Definition lzQuote (price : Z) (q : QuoteRequest) (sent : Z)
  : option MessagingFee :=
  Some {| nativeFee := price; lzTokenFee := 0 |}.

(** No enforced options: the caller's options pass as they are. *)
Definition combineOptions (eid msgType : Z) (extra : bytes) : option bytes :=
  Some extra.

(** [abi.encodePacked(TYPE_3)] *)
Definition newOptions : bytes := [x00; x03].

(** worker id 1, size, option type 1 (lzReceive), gas, and the value
    when it is not zero. *)
Definition addExecutorLzReceiveOption (opts : bytes) (gas value : Z)
  : bytes :=
  if value =? 0 then opts ++ [x01; x00; x11; x01] ++ be_bytes 16 gas
  else opts ++ [x01; x00; x21; x01] ++ be_bytes 16 gas ++ be_bytes 16 value.

Definition this : address := 0xB0B.

Definition world (b : Z) : World :=
  {| ball := b; events := []; transport := 0 |}.

Definition send (price : Z) :=
  MyOApp.send (lzSend price) combineOptions newOptions
    addExecutorLzReceiveOption.

Definition quote (price : Z) :=
  MyOApp.quote (lzQuote price) combineOptions newOptions
    addExecutorLzReceiveOption.

Definition _lzReceive (price : Z) :=
  MyOApp._lzReceive (lzSend price) this.

Definition origin : Origin := {| srcEid := 40168; sender := []; nonce := 1 |}.

(** A call that forwards 10, and one that forwards 9. *)
Definition caller : Msg := {| msg_sender := 7; msg_value := 10 |}.
Definition underpaid : Msg := {| msg_sender := 7; msg_value := 9 |}.

End Sample.

(** ** [library Uint256MsgCodec] of v1

    [v1/ball-v1/contracts/libs/Uint256MsgCodec.sol]: the codec before the
    ABA pattern, with the vanilla pair only. *)

Module Uint256MsgCodecV1.

Definition VANILLA_TYPE : Z := 1.

(** [encode(uint256 _value)] *)
Definition encode (_value : Z) : bytes := Abi.encode_uint256 _value.

(** [decode(bytes calldata _msg)] *)
Definition decode (_msg : bytes) : Result Z :=
  if negb (len _msg =? 32) then Revert InvalidMsgLength
  else Abi.decode_uint256 (firstn 32 _msg).

End Uint256MsgCodecV1.

(** ** Transactions on one deployed [MyOApp]

    A transaction either completes and its state is kept, or reverts and
    the state stays.  [TxLzReceive] is a delivery by the endpoint: the
    checks of the inherited [OAppReceiver.lzReceive] (caller is the
    endpoint, sender is the peer) are taken as passed. *)

Module Chain.
Import MyOApp.

Inductive Tx : Type :=
| TxSend (msg : Msg) (_dstEid : Z) (_returnOptions : bytes)
    (_returnGasEstimate : Z) (_options : bytes)
| TxLzReceive (msg : Msg) (_origin : Origin) (_guid payload : bytes)
    (_executor : address) (_extraData : bytes).

Section Chain.
Context {Transport Receipt : Type}.
Variable _lzSend_ext : SendRequest -> Transport -> option (Receipt * Transport).
Variable combineOptions : Z -> Z -> bytes -> option bytes.
Variable newOptions : bytes.
Variable addExecutorLzReceiveOption : bytes -> Z -> Z -> bytes.
Variable this : address.

Definition apply_tx (tx : Tx) (w : World (Transport := Transport))
  : World (Transport := Transport) :=
  match tx with
  | TxSend msg d ro g opts =>
      commit w (send _lzSend_ext combineOptions newOptions
                  addExecutorLzReceiveOption msg d ro g opts w)
  | TxLzReceive msg o guid payload ex extra =>
      commit w (_lzReceive _lzSend_ext this msg o guid payload ex extra w)
  end.

Definition run_txs (txs : list Tx) (w : World (Transport := Transport))
  : World (Transport := Transport) :=
  fold_left (fun w tx => apply_tx tx w) txs w.

End Chain.

(** The ball is a [uint256]. *)
Definition ball_in_range {Transport : Type}
    (w : World (Transport := Transport)) : Prop :=
  0 <= ball w <= max_uint256.

End Chain.

(** ** The hardhat task [lz:oapp:send], EVM side

    [sendFromEvm]: a [quote] call, then [send] with the quoted native fee
    as value, both with a return gas estimate of 1200000 and with the
    empty option set of the SDK as return options and as options.  The
    [quote] is a read-only call on the state the [send] then runs on.
    The signer, the SDK's [Options.newOptions().toHex()] and the contract
    behind it are parameters; the console output is left out. *)

Module SendTask.
Import MyOApp.

Definition returnGasEstimate : Z := 1200000.

Section Task.
Context {Transport Receipt : Type}.
Variable _lzSend_ext : SendRequest -> Transport -> option (Receipt * Transport).
Variable _quote_ext : QuoteRequest -> Transport -> option MessagingFee.
Variable combineOptions : Z -> Z -> bytes -> option bytes.
Variable newOptions : bytes.
Variable addExecutorLzReceiveOption : bytes -> Z -> Z -> bytes.
(** [Options.newOptions().toHex()] *)
Variable Options_newOptions : bytes.
(** the named signer [deployer] *)
Variable deployer : address.

Definition sendFromEvm (dstEid : Z) : M (Transport := Transport) Receipt :=
  let returnOptions := Options_newOptions in
  let options := Options_newOptions in
  bind
    (quote _quote_ext combineOptions newOptions addExecutorLzReceiveOption
       dstEid returnOptions returnGasEstimate options false)
    (fun fee =>
       send _lzSend_ext combineOptions newOptions addExecutorLzReceiveOption
         {| msg_sender := deployer; msg_value := nativeFee fee |}
         dstEid returnOptions returnGasEstimate options).

End Task.
End SendTask.

(** ** [scripts/decode-lz-message.ts]

    The body of the [try] block of [decodeMessage], as a function of the
    bytes of [decoded.args.encodedPayload].  Each [console.log] is one
    [Entry], in order; an exception ends the block with the line of the
    [catch].  Fetching the receipt and finding the log are not modelled. *)

Module DecodeLzMessage.

(** [Uint8Array.slice(a, b)] for 0 <= a <= b: stops at the end of the
    array. *)
Definition slice (l : bytes) (a b : Z) : bytes :=
  firstn (Z.to_nat (b - a)) (skipn (Z.to_nat a) l).

(** [ethers.BigNumber.from(bytes)]: the big-endian value; an empty array
    is the hex string "0x", which [BigNumber.from] refuses. *)
Definition BigNumber_from (l : bytes) : option Z :=
  match l with
  | [] => None
  | _ => Some (be_value l)
  end.

Inductive Entry : Type :=
| Banner_structure                 (* === LayerZero encodedPayload structure === *)
| TotalLength (n : Z)
| Version (v : option byte)
| SrcEid (n : Z)
| Sender (b : bytes)
| Nonce (n : Z)
| DstEid (n : Z)
| Receiver (b : bytes)
| Guid (b : bytes)
| Banner_remaining                 (* === Remaining payload (should be ABA message) === *)
| MessageLength (n : Z)
| MessageHex (b : bytes)           (* the first 200 characters: "0x" and 99 bytes *)
| Banner_decoding                  (* === Decoding ABA Message === *)
| Ball (n : Z)
| BallHex (b : bytes)
| MessageType (n : Z)
| ExpectedType                     (* Expected ABA_TYPE: 2 *)
| TypeMismatch                     (* ERROR: Message type mismatch! *)
| ReturnOptionsOffset (n : Z)
| ReturnOptionsLength (n : Z)
| ReturnOptions (b : bytes)
| ReturnOptionsEmpty
| InvalidOffset                    (* ERROR: Invalid offset! *)
| InvalidOffset_offset (n : Z)
| InvalidOffset_length (n : Z)
| ErrorDecoding.                   (* the catch *)

(** Go on with the value, or end in the [catch]. *)
Definition or_throw (x : option Z) (k : Z -> list Entry) : list Entry :=
  match x with
  | Some z => k z
  | None => [ErrorDecoding]
  end.

(** Lines 81 to 123: [if (messageBytes.length >= 128) { ... }]. *)
Definition decodeAba (messageBytes : bytes) : list Entry :=
  if 128 <=? len messageBytes then
    [Banner_decoding] ++
    let ballBytes := slice messageBytes 0 32 in
    or_throw (BigNumber_from ballBytes) (fun ball =>
    [Ball ball; BallHex ballBytes] ++
    let msgTypeBytes := slice messageBytes 32 64 in
    or_throw (BigNumber_from (slice msgTypeBytes 30 32)) (fun msgType =>
    [MessageType msgType; ExpectedType] ++
    (if msgType =? 2 then [] else [TypeMismatch]) ++
    let offsetBytes := slice messageBytes 64 96 in
    or_throw (BigNumber_from (slice offsetBytes 24 32)) (fun offsetValue =>
    [ReturnOptionsOffset offsetValue] ++
    if (128 <=? offsetValue) && (offsetValue <=? len messageBytes) then
      let offsetNum := offsetValue in
      let lenBytes := slice messageBytes offsetNum (offsetNum + 32) in
      or_throw (BigNumber_from (slice lenBytes 24 32)) (fun len_ =>
      [ReturnOptionsLength len_] ++
      if 0 <? len_ then
        let lenNum := len_ in
        [ReturnOptions
           (slice messageBytes (offsetNum + 32) (offsetNum + 32 + lenNum))]
      else [ReturnOptionsEmpty])
    else
      [InvalidOffset; InvalidOffset_offset offsetValue;
       InvalidOffset_length (len messageBytes)])))
  else [].

(** Lines 32 to 123. *)
Definition decodeEncodedPayload (encodedPayload : bytes) : list Entry :=
  [Banner_structure; TotalLength (len encodedPayload);
   Version (nth_error encodedPayload 0)] ++
  or_throw (BigNumber_from (slice encodedPayload 1 5)) (fun srcEid =>
  [SrcEid srcEid; Sender (slice encodedPayload 5 37)] ++
  or_throw (BigNumber_from (slice encodedPayload 37 45)) (fun nonce =>
  [Nonce nonce] ++
  or_throw (BigNumber_from (slice encodedPayload 45 49)) (fun dstEid =>
  [DstEid dstEid; Receiver (slice encodedPayload 49 81);
   Guid (slice encodedPayload 81 113)] ++
  let messageBytes := skipn 113 encodedPayload in
  [Banner_remaining; MessageLength (len messageBytes);
   MessageHex (firstn 99 messageBytes)] ++
  decodeAba messageBytes))).

End DecodeLzMessage.

(** * Properties *)

(** ** Big-endian words *)

Module EvmFacts.

Lemma Z_of_byte_range (b : byte) : 0 <= Z_of_byte b < 256.
Proof.
  unfold Z_of_byte. pose proof (Byte.to_N_bounded b). lia.
Qed.

Lemma Z_of_byte_of_Z (z : Z) : Z_of_byte (byte_of_Z z) = z mod 256.
Proof.
  unfold Z_of_byte, byte_of_Z.
  assert (Hr : 0 <= z mod 256 < 256) by (apply Z.mod_pos_bound; lia).
  destruct (Byte.of_N (Z.to_N (z mod 256))) as [b|] eqn:E.
  - apply Byte.to_of_N in E. rewrite E. lia.
  - apply Byte.of_N_None_iff in E. lia.
Qed.

Lemma be_value_snoc (l : bytes) (b : byte) :
  be_value (l ++ [b]) = be_value l * 256 + Z_of_byte b.
Proof. unfold be_value. now rewrite fold_left_app. Qed.

Lemma be_value_range (l : bytes) : 0 <= be_value l < 256 ^ len l.
Proof.
  unfold len. induction l as [|b l IH] using rev_ind.
  - cbn. lia.
  - rewrite be_value_snoc, length_app, Nat2Z.inj_add. cbn [length].
    rewrite Z.pow_add_r by lia.
    pose proof (Z_of_byte_range b). change (256 ^ Z.of_nat 1) with 256. nia.
Qed.

Lemma be_value_nonneg (l : bytes) : 0 <= be_value l.
Proof. apply be_value_range. Qed.

Lemma length_be_bytes (n : nat) (v : Z) : length (be_bytes n v) = n.
Proof.
  revert v. induction n as [|n IH]; intro v; cbn; [reflexivity|].
  rewrite length_app, IH. cbn. lia.
Qed.

Lemma be_value_be_bytes (n : nat) (v : Z) :
  be_value (be_bytes n v) = v mod 256 ^ Z.of_nat n.
Proof.
  revert v. induction n as [|n IH]; intro v.
  - cbn. now rewrite Z.mod_1_r.
  - cbn [be_bytes]. rewrite be_value_snoc, IH, Z_of_byte_of_Z.
    rewrite Nat2Z.inj_succ, Z.pow_succ_r by lia.
    rewrite Z.mod_mod by lia.
    rewrite Z.rem_mul_r; [lia | lia | apply Z.pow_pos_nonneg; lia].
Qed.

(** A 32-byte word read back: the value, when it fits 256 bits. *)
Lemma be_value_word (v : Z) :
  0 <= v < two256 -> be_value (be_bytes 32 v) = v.
Proof.
  intro Hv. rewrite be_value_be_bytes.
  change (256 ^ Z.of_nat 32) with two256. now apply Z.mod_small.
Qed.

Lemma len_app (a b : bytes) : len (a ++ b) = len a + len b.
Proof. unfold len. rewrite length_app. lia. Qed.

Lemma len_be_bytes (n : nat) (v : Z) : len (be_bytes n v) = Z.of_nat n.
Proof. unfold len. now rewrite length_be_bytes. Qed.

Lemma len_nonneg (a : bytes) : 0 <= len a.
Proof. unfold len. lia. Qed.

(** The word that starts where [pre] ends. *)
Lemma calldataload_at (pre w post : bytes) :
  length w = 32%nat ->
  calldataload (pre ++ w ++ post) (len pre) = be_value w.
Proof.
  intro Hw. unfold calldataload, len. rewrite Nat2Z.id.
  rewrite skipn_app, skipn_all, Nat.sub_diag. cbn [skipn app].
  rewrite <- Hw, <- !app_assoc, firstn_app, Nat.sub_diag, firstn_all.
  cbn [firstn]. now rewrite app_nil_r.
Qed.

(** A buffer of exactly one word. *)
Lemma calldataload_whole (w : bytes) :
  length w = 32%nat -> calldataload w 0 = be_value w.
Proof.
  intro Hw. pose proof (calldataload_at [] w [] Hw) as H.
  cbn [app] in H. now rewrite app_nil_r in H.
Qed.

(** The bytes that start where [pre] ends. *)
Lemma calldatacopy_at (pre r post : bytes) :
  calldatacopy (pre ++ r ++ post) (len pre) (len r) = r.
Proof.
  unfold calldatacopy, len. rewrite !Nat2Z.id.
  rewrite skipn_app, skipn_all, Nat.sub_diag. cbn [skipn app].
  rewrite <- !app_assoc, firstn_app, Nat.sub_diag, firstn_all.
  cbn [firstn]. now rewrite app_nil_r.
Qed.

Lemma signed256_small (a : Z) : 0 <= a < 2 ^ 255 -> signed256 a = a.
Proof.
  intro H. unfold signed256. destruct (Z.ltb_spec a (2 ^ 255)); lia.
Qed.

Lemma signed256_big (a : Z) :
  2 ^ 255 <= a < two256 -> signed256 a < 0.
Proof.
  intro H. unfold signed256. destruct (Z.ltb_spec a (2 ^ 255)); lia.
Qed.

Lemma add256_small (a b : Z) :
  0 <= a + b < two256 -> add256 a b = a + b.
Proof. intro H. unfold add256. now apply Z.mod_small. Qed.

End EvmFacts.

(** ** The ABI coder on the codec's own encodings *)

Module AbiFacts.
Import EvmFacts Abi.

Section Layout.
(** A buffer laid out as four words, the data and the padding. *)
Variables (a b c d r pad : bytes).
Hypothesis Ha : length a = 32%nat.
Hypothesis Hb : length b = 32%nat.
Hypothesis Hc : length c = 32%nat.
Hypothesis Hd : length d = 32%nat.

Let data := a ++ b ++ c ++ d ++ r ++ pad.

Lemma layout_len : len data = 128 + len r + len pad.
Proof.
  unfold data. rewrite !len_app. unfold len at 1 2 3 4.
  rewrite Ha, Hb, Hc, Hd. lia.
Qed.

Lemma layout_slot0 : calldataload data 0 = be_value a.
Proof. exact (calldataload_at [] a _ Ha). Qed.

Lemma layout_slot1 : calldataload data 32 = be_value b.
Proof.
  replace 32 with (len a) by (unfold len; now rewrite Ha).
  exact (calldataload_at a b _ Hb).
Qed.

Lemma layout_slot2 : calldataload data 64 = be_value c.
Proof.
  replace 64 with (len (a ++ b))
    by (rewrite len_app; unfold len; now rewrite Ha, Hb).
  unfold data. rewrite (app_assoc a b).
  exact (calldataload_at (a ++ b) c _ Hc).
Qed.

Lemma layout_slot3 : calldataload data 96 = be_value d.
Proof.
  replace 96 with (len ((a ++ b) ++ c))
    by (rewrite !len_app; unfold len; now rewrite Ha, Hb, Hc).
  unfold data. rewrite (app_assoc a b), (app_assoc (a ++ b) c).
  exact (calldataload_at ((a ++ b) ++ c) d _ Hd).
Qed.

Lemma layout_tail : calldatacopy data 128 (len r) = r.
Proof.
  replace 128 with (len (((a ++ b) ++ c) ++ d))
    by (rewrite !len_app; unfold len; now rewrite Ha, Hb, Hc, Hd).
  unfold data.
  rewrite (app_assoc a b), (app_assoc (a ++ b) c),
    (app_assoc ((a ++ b) ++ c) d).
  exact (calldatacopy_at _ r pad).
Qed.
End Layout.

(** [abi.decode] inverts [abi.encode] on (uint256, uint16 2, bytes). *)
Lemma decode_encode_tuple (v : Z) (r : bytes) :
  0 <= v < two256 ->
  len r <= max_uint64 ->
  decode_uint256_uint16_bytes (encode_uint256_uint16_bytes v 2 r)
  = Ok (v, 2, r).
Proof.
  intros Hv Hr.
  pose proof (len_nonneg r) as Hr0.
  pose proof (len_nonneg (zeros (padding (length r)))) as Hp0.
  assert (Hpad : len (zeros (padding (length r))) < 32).
  { unfold len, zeros. rewrite repeat_length. unfold padding.
    pose proof (Nat.mod_upper_bound (32 - length r mod 32) 32). lia. }
  assert (H64 : max_uint64 = 18446744073709551615) by reflexivity.
  assert (H255 : max_uint64 + 1000 < 2 ^ 255) by reflexivity.
  assert (H256 : 2 ^ 255 < two256) by reflexivity.
  unfold decode_uint256_uint16_bytes, decode_t_uint16, decode_t_bytes,
    decode_available_length_bytes, encode_uint256_uint16_bytes.
  rewrite layout_len, layout_slot0, layout_slot1, layout_slot2, layout_slot3
    by apply length_be_bytes.
  rewrite (be_value_word v Hv).
  rewrite (be_value_word 2), (be_value_word 96), (be_value_word (len r))
    by lia.
  unfold slt256, gt256.
  rewrite (signed256_small (128 + len r + _)) by lia.
  change (signed256 96) with 96.
  change (add256 96 31) with 127. change (signed256 127) with 127.
  change (add256 96 32) with 128.
  rewrite (add256_small 128 (len r)) by lia.
  change (2 =? Z.land 2 65535) with true. cbn [rbind].
  destruct (Z.ltb_spec (128 + len r + len (zeros (padding (length r)))) 96);
    [lia|].
  destruct (Z.ltb_spec max_uint64 96); [lia|].
  destruct (Z.ltb_spec 127 (128 + len r + len (zeros (padding (length r)))));
    [|lia].
  cbn [negb].
  destruct (Z.ltb_spec max_uint64 (len r)); [lia|].
  destruct (Z.ltb_spec (128 + len r + len (zeros (padding (length r))))
              (128 + len r)); [lia|].
  rewrite layout_tail by apply length_be_bytes. reflexivity.
Qed.

(** [abi.decode(.., (uint256))] of a one-word buffer is its value. *)
Lemma decode_uint256_word (w : bytes) :
  length w = 32%nat -> decode_uint256 w = Ok (be_value w).
Proof.
  intro Hw. unfold decode_uint256, len. rewrite Hw.
  change (slt256 (Z.of_nat 32) 32) with false. cbv iota.
  now rewrite calldataload_whole.
Qed.

End AbiFacts.

(** ** What a successful decode of the three-slot layout implies *)

Module DecodeBounds.
Import EvmFacts Abi.

Lemma uint16_slot (data : bytes) (p t : Z) :
  decode_t_uint16 data p = Ok t ->
  t = calldataload data p /\ 0 <= t <= 0xffff.
Proof.
  unfold decode_t_uint16. intro H.
  destruct (Z.eqb_spec (calldataload data p)
              (Z.land (calldataload data p) 0xffff)) as [E|E];
    [|discriminate].
  injection H as <-. split; [reflexivity|].
  change 0xffff with (Z.ones 16) in E. rewrite Z.land_ones in E by lia.
  pose proof (Z.mod_pos_bound (calldataload data p) (2 ^ 16) eq_refl).
  change (2 ^ 16) with 65536 in *. lia.
Qed.

(** The decoder returns only after each position it follows has been
    compared with the length of the buffer; no sum it forms wraps. *)
Lemma tuple_Ok (data : bytes) (v t : Z) (r : bytes) :
  decode_uint256_uint16_bytes data = Ok (v, t, r) ->
  let offset := calldataload data 64 in
  let length := calldataload data offset in
  v = calldataload data 0
  /\ t = calldataload data 32 /\ 0 <= t <= 0xffff
  /\ 0 <= offset <= max_uint64 /\ 0 <= length <= max_uint64
  /\ r = calldatacopy data (offset + 32) length
  /\ (len data < 2 ^ 255 ->
      96 <= len data /\ offset + 32 <= len data
      /\ offset + 32 + length <= len data)
  /\ (2 ^ 255 <= len data -> offset + 32 + length < len data - 32).
Proof.
  intros H offset length.
  pose proof (be_value_nonneg
                (firstn 32 (skipn (Z.to_nat 64) data ++ zeros 32))) as Ho.
  pose proof (be_value_nonneg
                (firstn 32 (skipn (Z.to_nat offset) data ++ zeros 32)))
    as Hl.
  fold (calldataload data 64) in Ho. fold offset in Ho.
  fold (calldataload data offset) in Hl. fold length in Hl.
  pose proof (len_nonneg data) as Hd.
  assert (H64 : max_uint64 = 18446744073709551615) by reflexivity.
  assert (H255 : max_uint64 + max_uint64 + 1000 < 2 ^ 255) by reflexivity.
  assert (H256 : 2 ^ 255 < two256) by reflexivity.
  unfold decode_uint256_uint16_bytes in H.
  destruct (slt256 (len data) 96) eqn:E96; [discriminate|].
  destruct (decode_t_uint16 data 32) as [t'|] eqn:Et; [|discriminate].
  apply uint16_slot in Et. destruct Et as [Et Hrange].
  cbn [rbind] in H. fold offset in H.
  unfold gt256 in H.
  destruct (Z.ltb_spec max_uint64 offset) as [|Hoff]; [discriminate|].
  unfold decode_t_bytes in H.
  rewrite (add256_small offset 31) in H by lia.
  rewrite (add256_small offset 32) in H by lia.
  destruct (slt256 (offset + 31) (len data)) eqn:Eoff; [|discriminate].
  cbn [negb] in H. fold length in H.
  unfold decode_available_length_bytes, gt256 in H.
  destruct (Z.ltb_spec max_uint64 length) as [|Hlen]; [discriminate|].
  rewrite (add256_small (offset + 32) length) in H by lia.
  destruct (Z.ltb_spec (len data) (offset + 32 + length)) as [|Hend];
    [discriminate|].
  cbn [rbind] in H. injection H as <- <- <-.
  unfold slt256 in E96, Eoff.
  rewrite (signed256_small (offset + 31)) in Eoff by lia.
  change (signed256 96) with 96 in E96.
  apply Z.ltb_ge in E96. apply Z.ltb_lt in Eoff.
  repeat split; try lia; try assumption.
  rewrite signed256_small in E96 by lia. lia.
Qed.

End DecodeBounds.

(** ** The engine, call by call *)

Module EngineFacts.
Import Uint256MsgCodec MyOApp.

#[local] Arguments encode : simpl never.
#[local] Arguments encodeABA : simpl never.
#[local] Arguments decodeABA : simpl never.

Ltac run :=
  unfold send, quote, _lzReceive, _lzSend, _quote, _combineOptionsMemory,
    _combineOptionsCalldata, bind, ret, lift, get_ball, set_ball, emit,
    checked_sub, checked_add;
  cbn -[Z.add Z.sub Z.ltb Z.eqb max_uint128 encode encodeABA decodeABA].

Section Runs.
Context {Transport Receipt : Type}.
Variable lzSend : SendRequest -> Transport -> option (Receipt * Transport).
Variable lzQuote : QuoteRequest -> Transport -> option MessagingFee.
Variable combine : Z -> Z -> bytes -> option bytes.
Variable newOptions : bytes.
Variable addOption : bytes -> Z -> Z -> bytes.
Variable this : address.

Lemma receive_other (w : World) msg origin guid payload executor extra
    v t r :
  decodeABA payload = Ok (v, t, r) ->
  t <> ABA_TYPE ->
  _lzReceive lzSend this msg origin guid payload executor extra w
  = {| issued := [];
       result := Ok (tt, {| ball := v;
                            events := events w
                              ++ [BallReceived executor (ball w) v];
                            transport := transport w |}) |}.
Proof.
  intros Hd Ht. run. rewrite Hd. run.
  destruct (Z.eqb_spec t ABA_TYPE); [contradiction|]. reflexivity.
Qed.

Lemma receive_aba_zero (w : World) msg origin guid payload executor extra
    r :
  decodeABA payload = Ok (0, ABA_TYPE, r) ->
  _lzReceive lzSend this msg origin guid payload executor extra w
  = {| issued := []; result := Revert (Panic 0x11) |}.
Proof. intros Hd. run. rewrite Hd. reflexivity. Qed.

Lemma receive_aba (w : World) msg origin guid payload executor extra
    v r :
  decodeABA payload = Ok (v, ABA_TYPE, r) ->
  1 <= v ->
  _lzReceive lzSend this msg origin guid payload executor extra w
  = {| issued := [CallSend (reply this msg origin v r)];
       result :=
         match lzSend (reply this msg origin v r) (transport w) with
         | Some (_, t') =>
             Ok (tt, {| ball := v - 1;
                        events := events w
                          ++ [BallReceived executor (ball w) v;
                              ReturnMessageSent (srcEid origin) (v - 1)];
                        transport := t' |})
         | None => Revert ExternalRevert
         end |}.
Proof.
  intros Hd Hv. run. rewrite Hd. run.
  change (ABA_TYPE =? ABA_TYPE) with true. run.
  destruct (Z.ltb_spec v 1); [lia|]. run.
  unfold reply.
  destruct (lzSend _ (transport w)) as [[rc t']|]; run;
    [rewrite <- app_assoc|]; reflexivity.
Qed.

Lemma send_zero (w : World) msg dst ro g opts :
  ball w < 1 ->
  send lzSend combine newOptions addOption msg dst ro g opts w
  = {| issued := []; result := Revert (Panic 0x11) |}.
Proof.
  intro Hb. run. destruct (Z.ltb_spec (ball w) 1); [|lia]. reflexivity.
Qed.

Lemma send_gas_overflow (w : World) msg dst ro g opts :
  1 <= ball w -> max_uint128 < 180000 + g ->
  send lzSend combine newOptions addOption msg dst ro g opts w
  = {| issued := []; result := Revert (Panic 0x11) |}.
Proof.
  intros Hb Hg. run. destruct (Z.ltb_spec (ball w) 1); [lia|]. run.
  destruct (Z.ltb_spec max_uint128 (180000 + g)); [|lia]. reflexivity.
Qed.

Lemma send_combine_fails (w : World) msg dst ro g opts :
  1 <= ball w -> 180000 + g <= max_uint128 ->
  combine dst ABA_TYPE (packed newOptions addOption g opts) = None ->
  send lzSend combine newOptions addOption msg dst ro g opts w
  = {| issued := []; result := Revert ExternalRevert |}.
Proof.
  intros Hb Hg Hc. run. destruct (Z.ltb_spec (ball w) 1); [lia|]. run.
  destruct (Z.ltb_spec max_uint128 (180000 + g)); [lia|]. run.
  unfold packed in Hc. rewrite Hc. reflexivity.
Qed.

Lemma send_issues (w : World) msg dst ro g opts c :
  1 <= ball w -> 180000 + g <= max_uint128 ->
  combine dst ABA_TYPE (packed newOptions addOption g opts) = Some c ->
  issued (send lzSend combine newOptions addOption msg dst ro g opts w)
  = [CallSend
       {| s_dstEid := dst; s_message := encodeABA (ball w - 1) ro;
          s_options := c;
          s_fee := {| nativeFee := msg_value msg; lzTokenFee := 0 |};
          s_refundAddress := msg_sender msg |}].
Proof.
  intros Hb Hg Hc. run. destruct (Z.ltb_spec (ball w) 1); [lia|]. run.
  destruct (Z.ltb_spec max_uint128 (180000 + g)); [lia|]. run.
  unfold packed in Hc. rewrite Hc. reflexivity.
Qed.

Lemma quote_zero (w : World) dst ro g opts pay :
  ball w < 1 ->
  quote lzQuote combine newOptions addOption dst ro g opts pay w
  = {| issued := []; result := Revert (Panic 0x11) |}.
Proof.
  intro Hb. run. destruct (Z.ltb_spec (ball w) 1); [|lia]. reflexivity.
Qed.

Lemma quote_gas_overflow (w : World) dst ro g opts pay :
  1 <= ball w -> max_uint128 < 180000 + g ->
  quote lzQuote combine newOptions addOption dst ro g opts pay w
  = {| issued := []; result := Revert (Panic 0x11) |}.
Proof.
  intros Hb Hg. run. destruct (Z.ltb_spec (ball w) 1); [lia|]. run.
  destruct (Z.ltb_spec max_uint128 (180000 + g)); [|lia]. reflexivity.
Qed.

Lemma quote_combine_fails (w : World) dst ro g opts pay :
  1 <= ball w -> 180000 + g <= max_uint128 ->
  combine dst ABA_TYPE (packed newOptions addOption g opts) = None ->
  quote lzQuote combine newOptions addOption dst ro g opts pay w
  = {| issued := []; result := Revert ExternalRevert |}.
Proof.
  intros Hb Hg Hc. run. destruct (Z.ltb_spec (ball w) 1); [lia|]. run.
  destruct (Z.ltb_spec max_uint128 (180000 + g)); [lia|]. run.
  unfold packed in Hc. rewrite Hc. reflexivity.
Qed.

Lemma quote_runs (w : World) dst ro g opts pay c :
  1 <= ball w -> 180000 + g <= max_uint128 ->
  combine dst ABA_TYPE (packed newOptions addOption g opts) = Some c ->
  let q := {| q_dstEid := dst; q_message := encodeABA (ball w - 1) ro;
              q_options := c; q_payInLzToken := pay |} in
  quote lzQuote combine newOptions addOption dst ro g opts pay w
  = {| issued := [CallQuote q];
       result := match lzQuote q (transport w) with
                 | Some fee => Ok (fee, w)
                 | None => Revert ExternalRevert
                 end |}.
Proof.
  intros Hb Hg Hc q. run. destruct (Z.ltb_spec (ball w) 1); [lia|]. run.
  destruct (Z.ltb_spec max_uint128 (180000 + g)); [lia|]. run.
  unfold packed in Hc. rewrite Hc. run. subst q.
  destruct (lzQuote _ (transport w)); reflexivity.
Qed.

End Runs.

End EngineFacts.

(** ** The calls [send] and [quote] hand to the transport *)

Module Calls.
Import Uint256MsgCodec MyOApp EngineFacts.

Section Calls.
Context {Transport Receipt : Type}.
Variable lzSend : SendRequest -> Transport -> option (Receipt * Transport).
Variable lzQuote : QuoteRequest -> Transport -> option MessagingFee.
Variable combine : Z -> Z -> bytes -> option bytes.
Variable newOptions : bytes.
Variable addOption : bytes -> Z -> Z -> bytes.

Lemma send_cases (w : World) msg dst ro g opts :
  let o := send lzSend combine newOptions addOption msg dst ro g opts w in
  issued o = []
  \/ exists c,
       combine dst ABA_TYPE (packed newOptions addOption g opts) = Some c
       /\ issued o
          = [CallSend
               {| s_dstEid := dst;
                  s_message := encodeABA (ball w - 1) ro;
                  s_options := c;
                  s_fee := {| nativeFee := msg_value msg;
                              lzTokenFee := 0 |};
                  s_refundAddress := msg_sender msg |}].
Proof.
  intro o. subst o.
  destruct (Z_lt_le_dec (ball w) 1) as [Hb|Hb].
  { left. now rewrite send_zero. }
  destruct (Z_lt_le_dec max_uint128 (180000 + g)) as [Hg|Hg].
  { left. now rewrite send_gas_overflow. }
  destruct (combine dst ABA_TYPE (packed newOptions addOption g opts))
    as [c|] eqn:Hc.
  - right. exists c. split; [reflexivity|]. now apply send_issues.
  - left. now rewrite send_combine_fails.
Qed.

Lemma quote_cases (w : World) dst ro g opts pay :
  let o := quote lzQuote combine newOptions addOption dst ro g opts pay w in
  (issued o = [] /\ exists e, result o = Revert e)
  \/ exists c,
       combine dst ABA_TYPE (packed newOptions addOption g opts) = Some c
       /\ let q := {| q_dstEid := dst;
                      q_message := encodeABA (ball w - 1) ro;
                      q_options := c; q_payInLzToken := pay |} in
          issued o = [CallQuote q]
          /\ result o = match lzQuote q (transport w) with
                        | Some fee => Ok (fee, w)
                        | None => Revert ExternalRevert
                        end.
Proof.
  intro o. subst o.
  destruct (Z_lt_le_dec (ball w) 1) as [Hb|Hb].
  { left. rewrite quote_zero by assumption.
    split; [reflexivity | eexists; reflexivity]. }
  destruct (Z_lt_le_dec max_uint128 (180000 + g)) as [Hg|Hg].
  { left. rewrite quote_gas_overflow by assumption.
    split; [reflexivity | eexists; reflexivity]. }
  destruct (combine dst ABA_TYPE (packed newOptions addOption g opts))
    as [c|] eqn:Hc.
  - right. exists c. split; [reflexivity|].
    rewrite (quote_runs lzQuote combine newOptions addOption w dst ro g
               opts pay c Hb Hg Hc).
    split; reflexivity.
  - left. rewrite quote_combine_fails by assumption.
    split; [reflexivity | eexists; reflexivity].
Qed.

End Calls.
End Calls.

(** * The claims *)

Import Uint256MsgCodec MyOApp.

(** ** Codec *)

(** C9.  For every 256-bit value [v], [encode v] is exactly 32 bytes, the
    whole of which is the big-endian value [v], and [decode] gives [v]
    back; [decode] fails with [InvalidMsgLength] on every input whose
    length is not 32. *)
Theorem C9_vanilla_roundtrip (v : Z) (_msg : bytes)
    (Hv : 0 <= v <= max_uint256) (Hlen : len _msg <> 32) :
  length (encode v) = 32%nat
  /\ be_value (encode v) = v
  /\ decode (encode v) = Ok v
  /\ decode _msg = Revert InvalidMsgLength.
Proof.
  assert (Hv' : 0 <= v < two256) by (unfold max_uint256, two256 in *; lia).
  assert (Hl : length (encode v) = 32%nat) by apply EvmFacts.length_be_bytes.
  split; [|split; [|split]].
  - exact Hl.
  - now apply EvmFacts.be_value_word.
  - unfold decode, len. rewrite Hl. change (Z.of_nat 32 =? 32) with true.
    cbn [negb]. rewrite <- Hl, firstn_all.
    rewrite (AbiFacts.decode_uint256_word _ Hl).
    unfold encode, Abi.encode_uint256.
    now rewrite EvmFacts.be_value_word.
  - unfold decode. destruct (Z.eqb_spec (len _msg) 32); [contradiction|].
    reflexivity.
Qed.

Lemma C9_vanilla_roundtrip_witness :
  (0 <= 100 <= max_uint256) /\ len [x01; x02] <> 32
  /\ length (encode 100) = 32%nat
  /\ be_value (encode 100) = 100
  /\ decode (encode 100) = Ok 100
  /\ decode [x01; x02] = Revert InvalidMsgLength.
Proof.
  assert (H1 : 0 <= 100 <= max_uint256) by (vm_compute; split; discriminate).
  assert (H2 : len [x01; x02] <> 32) by (vm_compute; discriminate).
  split; [exact H1|]. split; [exact H2|].
  exact (C9_vanilla_roundtrip 100 [x01; x02] H1 H2).
Defined.

(** C3.  Every buffer of exactly 32 bytes decodes, whatever it holds, to
    its big-endian 256-bit value with msgType 0 and empty returnOptions;
    the three-slot layout, which rejects such a buffer, is not tried. *)
Theorem C3_decodeABA_vanilla (_msg : bytes) (Hlen : length _msg = 32%nat) :
  decodeABA _msg = Ok (be_value _msg, 0, [])
  /\ 0 <= be_value _msg <= max_uint256
  /\ Abi.decode_uint256_uint16_bytes _msg = Revert AbiDecodeError.
Proof.
  split; [|split; [split|]].
  - unfold decodeABA, len. rewrite Hlen.
    change (Z.of_nat 32 =? 32) with true. cbv iota.
    now rewrite (AbiFacts.decode_uint256_word _ Hlen).
  - apply EvmFacts.be_value_nonneg.
  - pose proof (EvmFacts.be_value_range _msg) as H. unfold len in H.
    rewrite Hlen in H. change (256 ^ Z.of_nat 32) with two256 in H.
    unfold max_uint256, two256 in *. lia.
  - unfold Abi.decode_uint256_uint16_bytes, len. rewrite Hlen. reflexivity.
Qed.

Lemma C3_decodeABA_vanilla_witness :
  let _msg := be_bytes 32 100 in
  length _msg = 32%nat
  /\ decodeABA _msg = Ok (be_value _msg, 0, [])
  /\ 0 <= be_value _msg <= max_uint256
  /\ Abi.decode_uint256_uint16_bytes _msg = Revert AbiDecodeError.
Proof.
  intro _msg.
  assert (H : length _msg = 32%nat) by reflexivity.
  split; [exact H|]. exact (C3_decodeABA_vanilla _msg H).
Defined.

(** C2.  For every 256-bit value [v] and every byte string [r] (a [bytes]
    value: its length fits 64 bits), [decodeABA (encodeABA v r)] succeeds
    with exactly [(v, ABA_TYPE, r)], [ABA_TYPE] being 2.  [encodeABA 100 []]
    is the 128 bytes [100][2][96][0] and decodes to [(100, 2, [])]. *)
Theorem C2_encodeABA_roundtrip (v : Z) (r : bytes)
    (Hv : 0 <= v <= max_uint256) (Hr : len r <= max_uint64) :
  decodeABA (encodeABA v r) = Ok (v, ABA_TYPE, r)
  /\ ABA_TYPE = 2
  /\ encodeABA 100 []
     = be_bytes 32 100 ++ be_bytes 32 2 ++ be_bytes 32 96 ++ be_bytes 32 0
  /\ len (encodeABA 100 []) = 128
  /\ decodeABA (encodeABA 100 []) = Ok (100, 2, []).
Proof.
  assert (Hv' : 0 <= v < two256) by (unfold max_uint256, two256 in *; lia).
  split; [|repeat split; vm_compute; reflexivity].
  unfold decodeABA, encodeABA, ABA_TYPE.
  assert (Hl : len (Abi.encode_uint256_uint16_bytes v 2 r) <> 32).
  { unfold Abi.encode_uint256_uint16_bytes.
    rewrite AbiFacts.layout_len by apply EvmFacts.length_be_bytes.
    pose proof (EvmFacts.len_nonneg r).
    pose proof (EvmFacts.len_nonneg (zeros (Abi.padding (length r)))). lia. }
  destruct (Z.eqb_spec (len (Abi.encode_uint256_uint16_bytes v 2 r)) 32);
    [contradiction|].
  now apply AbiFacts.decode_encode_tuple.
Qed.

Lemma C2_encodeABA_roundtrip_witness :
  let v := 7 in
  let r := [x00; x03; x01; x00; x11; x01] in
  (0 <= v <= max_uint256) /\ len r <= max_uint64
  /\ decodeABA (encodeABA v r) = Ok (v, ABA_TYPE, r).
Proof.
  intros v r.
  assert (H1 : 0 <= v <= max_uint256) by (vm_compute; split; discriminate).
  assert (H2 : len r <= max_uint64) by (vm_compute; discriminate).
  split; [exact H1|]. split; [exact H2|].
  exact (proj1 (C2_encodeABA_roundtrip v r H1 H2)).
Defined.

(** C1 (as the code has it).  A buffer whose length is not 32 is rejected
    by [decodeABA] whenever it is shorter than 96 bytes, or the tail
    offset in the third head slot is above length - 32 (so also whenever
    it is above the length), or the declared tail length runs past the
    end of the buffer.  No sum the decoder forms wraps, and nothing is
    truncated: the call reverts. *)
Theorem C1_decodeABA_rejects (_msg : bytes)
    (Hlen : len _msg <> 32)
    (Hbad : len _msg < 96
            \/ len _msg - 32 < calldataload _msg 64
            \/ len _msg < calldataload _msg 64 + 32
                          + calldataload _msg (calldataload _msg 64)) :
  exists e, decodeABA _msg = Revert e.
Proof.
  unfold decodeABA. destruct (Z.eqb_spec (len _msg) 32); [contradiction|].
  destruct (Abi.decode_uint256_uint16_bytes _msg) as [[[v t] r]|e] eqn:E;
    [|now exists e].
  exfalso. apply DecodeBounds.tuple_Ok in E. cbv zeta in E.
  destruct E as (_ & _ & _ & Hoff & Hn & _ & Hsmall & Hbig).
  assert (H255 : max_uint64 + max_uint64 + 1000 < 2 ^ 255) by reflexivity.
  destruct (Z_lt_le_dec (len _msg) (2 ^ 255)) as [Hs|Hs].
  - specialize (Hsmall Hs). lia.
  - specialize (Hbig Hs). lia.
Qed.

Lemma C1_decodeABA_rejects_witness :
  let truncated := be_bytes 32 100 ++ be_bytes 32 2 ++ be_bytes 32 96 in
  len truncated <> 32
  /\ len truncated - 32 < calldataload truncated 64
  /\ exists e, decodeABA truncated = Revert e.
Proof.
  intro truncated.
  assert (H1 : len truncated <> 32) by (vm_compute; discriminate).
  assert (H2 : len truncated - 32 < calldataload truncated 64)
    by (vm_compute; reflexivity).
  split; [exact H1|]. split; [exact H2|].
  exact (C1_decodeABA_rejects truncated H1 (or_intror (or_introl H2))).
Defined.

(** C1, the claim as written fails: a 96-byte buffer [100][2][32] has
    its tail offset, 32, below 96, and [decodeABA] accepts it: the length
    word is the type slot and the two data bytes are the first two bytes
    of the offset slot. *)
Lemma C1_offset_below_head_accepted :
  let _msg := be_bytes 32 100 ++ be_bytes 32 2 ++ be_bytes 32 32 in
  len _msg = 96 /\ len _msg <> 32
  /\ calldataload _msg 64 = 32
  /\ ~ (96 <= calldataload _msg 64 <= len _msg)
  /\ decodeABA _msg = Ok (100, 2, [x00; x00])
  /\ ~ (exists e, decodeABA _msg = Revert e).
Proof.
  intro _msg.
  assert (Hd : decodeABA _msg = Ok (100, 2, [x00; x00]))
    by (vm_compute; reflexivity).
  assert (Ho : calldataload _msg 64 = 32) by (vm_compute; reflexivity).
  split; [vm_compute; reflexivity|]. split; [|split; [|split; [|split]]].
  - vm_compute; discriminate.
  - exact Ho.
  - rewrite Ho. lia.
  - exact Hd.
  - intros [e He]. rewrite Hd in He. discriminate.
Qed.

(** ** Engine *)

Section EngineClaims.
Context {Transport Receipt : Type}.
Variable lzSend : SendRequest -> Transport -> option (Receipt * Transport).
Variable lzQuote : QuoteRequest -> Transport -> option MessagingFee.
Variable combine : Z -> Z -> bytes -> option bytes.
Variable newOptions : bytes.
Variable addOption : bytes -> Z -> Z -> bytes.
Variable this : address.

Local Notation "'receive'" := (_lzReceive lzSend this).
Local Notation "'send''" := (send lzSend combine newOptions addOption).
Local Notation "'quote''" := (quote lzQuote combine newOptions addOption).

(** C4 (as the code has it).  For every payload that [_lzReceive]
    decodes: with the ABA tag and a value of at least 1 it hands exactly
    one send to the transport; with the ABA tag and value 0 it reverts
    on the decrement before any send; with any other tag (the Vanilla 0
    or any other 16-bit value, all of them decoded) it completes with
    no send at all. *)
Theorem C4_reply_count (w : World) msg origin guid payload executor extra
    v t r
    (Hd : decodeABA payload = Ok (v, t, r)) :
  let o := receive msg origin guid payload executor extra w in
  (t = ABA_TYPE -> 1 <= v -> length (sends (issued o)) = 1%nat)
  /\ (t = ABA_TYPE -> v < 1 ->
      issued o = [] /\ result o = Revert (Panic 0x11))
  /\ (t <> ABA_TYPE ->
      sends (issued o) = [] /\ exists w', result o = Ok (tt, w')).
Proof.
  intro o. subst o. split; [|split].
  - intros -> Hv. now rewrite (EngineFacts.receive_aba _ _ _ _ _ _ _ _ _ _ _ Hd Hv).
  - intros -> Hv.
    assert (v = 0) as ->.
    { unfold decodeABA in Hd.
      destruct (len payload =? 32).
      - unfold Abi.decode_uint256 in Hd.
        destruct (slt256 (len payload) 32); [discriminate|].
        cbn [rbind] in Hd. discriminate.
      - apply DecodeBounds.tuple_Ok in Hd. destruct Hd as [-> _].
        pose proof (EvmFacts.be_value_nonneg
                      (firstn 32 (skipn (Z.to_nat 0) payload ++ zeros 32))).
        unfold calldataload in *. lia. }
    now rewrite (EngineFacts.receive_aba_zero _ _ _ _ _ _ _ _ _ _ Hd).
  - intros Ht.
    rewrite (EngineFacts.receive_other _ _ _ _ _ _ _ _ _ _ _ _ Hd Ht).
    split; [reflexivity|]. eexists. reflexivity.
Qed.

(** C5 (as the code has it).  For every receive of an ABA-tagged message
    that carries a value [v] of at least 1 and return options [r], the
    single call handed to the transport is the reply to the source
    path: the vanilla encoding of [v - 1], options [r] as decoded, fee
    [(msg.value, 0)], refund to the contract; when the transport takes
    it, the call ends with the ball set to [v] and then to [v - 1]. *)
Theorem C5_reply_content (w : World) msg origin guid payload executor extra
    v r
    (Hd : decodeABA payload = Ok (v, ABA_TYPE, r)) (Hv : 1 <= v) :
  let o := receive msg origin guid payload executor extra w in
  let req := {| s_dstEid := srcEid origin; s_message := encode (v - 1);
                s_options := r;
                s_fee := {| nativeFee := msg_value msg; lzTokenFee := 0 |};
                s_refundAddress := this |} in
  issued o = [CallSend req]
  /\ forall receipt t',
       lzSend req (transport w) = Some (receipt, t') ->
       result o
       = Ok (tt, {| ball := v - 1;
                    events := events w
                      ++ [BallReceived executor (ball w) v;
                          ReturnMessageSent (srcEid origin) (v - 1)];
                    transport := t' |}).
Proof.
  intros o req. subst o.
  rewrite (EngineFacts.receive_aba _ _ _ _ _ _ _ _ _ _ _ Hd Hv).
  fold req. change (reply this msg origin v r) with req.
  split; [reflexivity|]. intros receipt t' Hs. cbn [result].
  now rewrite Hs.
Qed.

(** C6 (as the code has it).  When the reply send inside [_lzReceive]
    fails, the whole call reverts: the failure ends the receive, and
    the contract keeps the state it had before the call, the assignment
    of the received value to the ball included. *)
Theorem C6_failed_reply_reverts (w : World) msg origin guid payload executor
    extra v r
    (Hd : decodeABA payload = Ok (v, ABA_TYPE, r)) (Hv : 1 <= v)
    (Hfail : lzSend (reply this msg origin v r) (transport w) = None) :
  let o := receive msg origin guid payload executor extra w in
  result o = Revert ExternalRevert /\ commit w o = w.
Proof.
  intro o. subst o. unfold commit.
  rewrite (EngineFacts.receive_aba _ _ _ _ _ _ _ _ _ _ _ Hd Hv).
  cbn [result]. rewrite Hfail. split; reflexivity.
Qed.

(** C7.  For every [g] given to [send] or to [quote], every call that
    reaches the transport carries the options [combineOptions] made of
    [addExecutorLzReceiveOption(newOptions(), 180000 + g, 0)] followed
    by the caller's options: gas exactly 180000 + g, native drop 0; for
    [g] = 50000 the gas is 230000.  As long as the ball is at least 1,
    180000 + g fits uint128 and [combineOptions] returns, [send] and
    [quote] do reach the transport, once each. *)
Theorem C7_lzReceive_gas (w : World) msg dst ro g opts pay :
  (forall call,
      In call (issued (send' msg dst ro g opts w)
               ++ issued (quote' dst ro g opts pay w)) ->
      combine dst ABA_TYPE (addOption newOptions (180000 + g) 0 ++ opts)
      = Some (call_options call))
  /\ (forall call,
         In call (issued (send' msg dst ro 50000 opts w)
                  ++ issued (quote' dst ro 50000 opts pay w)) ->
         combine dst ABA_TYPE (addOption newOptions 230000 0 ++ opts)
         = Some (call_options call))
  /\ (forall c,
         1 <= ball w -> 180000 + g <= max_uint128 ->
         combine dst ABA_TYPE (addOption newOptions (180000 + g) 0 ++ opts)
         = Some c ->
         map call_options (issued (send' msg dst ro g opts w)) = [c]
         /\ map call_options (issued (quote' dst ro g opts pay w)) = [c]).
Proof.
  assert (Hall : forall g' call,
             In call (issued (send' msg dst ro g' opts w)
                      ++ issued (quote' dst ro g' opts pay w)) ->
             combine dst ABA_TYPE
               (addOption newOptions (180000 + g') 0 ++ opts)
             = Some (call_options call)).
  { intros g' call Hin. apply in_app_or in Hin. destruct Hin as [Hin|Hin].
    - destruct (Calls.send_cases lzSend combine newOptions addOption
                  w msg dst ro g' opts) as [E|[c [Hc E]]];
        rewrite E in Hin; [contradiction|].
      destruct Hin as [<-|[]]. exact Hc.
    - destruct (Calls.quote_cases lzQuote combine newOptions addOption
                  w dst ro g' opts pay) as [[E _]|[c [Hc [E _]]]];
        rewrite E in Hin; [contradiction|].
      destruct Hin as [<-|[]]. exact Hc. }
  split; [exact (Hall g)|]. split; [exact (Hall 50000)|].
  intros c Hb Hg Hc. split.
  - now rewrite (EngineFacts.send_issues _ _ _ _ _ _ _ _ _ _ _ Hb Hg Hc).
  - now rewrite (EngineFacts.quote_runs _ _ _ _ _ _ _ _ _ _ _ Hb Hg Hc).
Qed.

(** C8.  On the same inputs and the same ball, [quote] hands the
    transport the destination, the message and the options that [send]
    hands it (the message being the ABA encoding of ball - 1 with the
    return options), and [quote] leaves the state as it found it. *)
Theorem C8_quote_builds_as_send (w : World) msg dst ro g opts pay :
  let s := send' msg dst ro g opts w in
  let q := quote' dst ro g opts pay w in
  map call_dstEid (issued s) = map call_dstEid (issued q)
  /\ map call_message (issued s) = map call_message (issued q)
  /\ map call_options (issued s) = map call_options (issued q)
  /\ (forall call, In call (issued q) ->
        call_message call = encodeABA (ball w - 1) ro)
  /\ (forall fee w', result q = Ok (fee, w') -> w' = w)
  /\ commit w q = w.
Proof.
  intros s q. subst s q. unfold commit.
  destruct (Calls.quote_cases lzQuote combine newOptions addOption
              w dst ro g opts pay) as [[Eq [e Er]]|[c [Hc [Eq Er]]]];
    rewrite Eq, Er.
  - destruct (Calls.send_cases lzSend combine newOptions addOption
                w msg dst ro g opts) as [Es|[c [Hc Es]]];
      rewrite Es.
    + repeat split; try reflexivity; try contradiction; discriminate.
    + exfalso.
      destruct (Z_lt_le_dec (ball w) 1) as [Hb|Hb].
      { rewrite EngineFacts.send_zero in Es by assumption. discriminate. }
      destruct (Z_lt_le_dec max_uint128 (180000 + g)) as [Hg|Hg].
      { rewrite EngineFacts.send_gas_overflow in Es by assumption.
        discriminate. }
      rewrite (EngineFacts.quote_runs _ _ _ _ _ _ _ _ _ _ _ Hb Hg Hc) in Eq.
      discriminate.
  - destruct (Calls.send_cases lzSend combine newOptions addOption
                w msg dst ro g opts) as [Es|[c' [Hc' Es]]];
      rewrite Es.
    + exfalso.
      destruct (Z_lt_le_dec (ball w) 1) as [Hb|Hb].
      { rewrite EngineFacts.quote_zero in Eq by assumption. discriminate. }
      destruct (Z_lt_le_dec max_uint128 (180000 + g)) as [Hg|Hg].
      { rewrite EngineFacts.quote_gas_overflow in Eq by assumption.
        discriminate. }
      rewrite (EngineFacts.send_issues _ _ _ _ _ _ _ _ _ _ _ Hb Hg Hc) in Es.
      discriminate.
    + assert (c' = c) as -> by congruence.
      split; [reflexivity|]. split; [reflexivity|]. split; [reflexivity|].
      split; [intros call [<-|[]]; reflexivity|].
      destruct (lzQuote _ (transport w)); split;
        try reflexivity; intros fee w' H; now inversion H.
Qed.

(** C10.  In every state where the ball is 0, [send] reverts with
    Panic 0x11 on [ball - 1] before it hands anything to the transport,
    and the ball stays 0; [_lzReceive] of an ABA-tagged message that
    carries 0 reverts the same way on the reply decrement, in any
    state, and the state stays what it was. *)
Theorem C10_zero_ball_reverts (w w2 : World) msg dst ro g opts
    origin guid payload executor extra r
    (Hb : ball w = 0)
    (Hd : decodeABA payload = Ok (0, ABA_TYPE, r)) :
  let s := send' msg dst ro g opts w in
  let o := receive msg origin guid payload executor extra w2 in
  s = {| issued := []; result := Revert (Panic 0x11) |}
  /\ commit w s = w /\ ball (commit w s) = 0
  /\ o = {| issued := []; result := Revert (Panic 0x11) |}
  /\ commit w2 o = w2.
Proof.
  intros s o. subst s o. unfold commit.
  rewrite EngineFacts.send_zero by lia.
  rewrite (EngineFacts.receive_aba_zero _ _ _ _ _ _ _ _ _ _ Hd).
  cbn [result]. repeat split; assumption.
Qed.

End EngineClaims.

(** ** The claims on the sample endpoint *)

Lemma C4_reply_count_witness :
  let payload := encodeABA 100 [] in
  let other := Abi.encode_uint256_uint16_bytes 100 7 [] in
  let w := Sample.world 5 in
  decodeABA payload = Ok (100, ABA_TYPE, [])
  /\ decodeABA other = Ok (100, 7, [])
  /\ length (sends (issued (Sample._lzReceive 10 Sample.caller
                              Sample.origin [] payload 9 [] w))) = 1%nat
  /\ sends (issued (Sample._lzReceive 10 Sample.caller
                      Sample.origin [] other 9 [] w)) = [].
Proof.
  intros payload other w.
  assert (H1 : decodeABA payload = Ok (100, ABA_TYPE, []))
    by (vm_compute; reflexivity).
  assert (H2 : decodeABA other = Ok (100, 7, [])) by (vm_compute; reflexivity).
  assert (Hv : 1 <= 100) by (vm_compute; discriminate).
  assert (Ht : 7 <> ABA_TYPE) by (vm_compute; discriminate).
  split; [exact H1|]. split; [exact H2|]. split.
  - exact (proj1 (C4_reply_count (Sample.lzSend 10) Sample.this w
                    Sample.caller Sample.origin [] payload 9 []
                    100 ABA_TYPE [] H1) eq_refl Hv).
  - exact (proj1 (proj2 (proj2
             (C4_reply_count (Sample.lzSend 10) Sample.this w
                Sample.caller Sample.origin [] other 9 [] 100 7 [] H2))
             Ht)).
Defined.

(** C4, the claim as written fails: the payload [encodeABA 0 []] decodes,
    carries the ABA tag, and [_lzReceive] hands no send to the
    transport: the decrement of the ball reverts first. *)
Lemma C4_no_send_on_zero :
  let payload := encodeABA 0 [] in
  let o := Sample._lzReceive 10 Sample.caller Sample.origin [] payload 9 []
             (Sample.world 5) in
  decodeABA payload = Ok (0, ABA_TYPE, [])
  /\ sends (issued o) = []
  /\ length (sends (issued o)) <> 1%nat.
Proof.
  intros payload o. split; [vm_compute; reflexivity|].
  split; [vm_compute; reflexivity|]. vm_compute. discriminate.
Qed.

Lemma C5_reply_content_witness :
  let payload := encodeABA 100 [x00; x03] in
  let w := Sample.world 5 in
  let o := Sample._lzReceive 10 Sample.caller Sample.origin [] payload 9 []
             w in
  let req := {| s_dstEid := 40168; s_message := encode 99;
                s_options := [x00; x03];
                s_fee := {| nativeFee := 10; lzTokenFee := 0 |};
                s_refundAddress := Sample.this |} in
  decodeABA payload = Ok (100, ABA_TYPE, [x00; x03])
  /\ 1 <= 100
  /\ issued o = [CallSend req]
  /\ result o
     = Ok (tt, {| ball := 99;
                  events := [BallReceived 9 5 100;
                             ReturnMessageSent 40168 99];
                  transport := 1 |}).
Proof.
  intros payload w o req.
  assert (H1 : decodeABA payload = Ok (100, ABA_TYPE, [x00; x03]))
    by (vm_compute; reflexivity).
  assert (Hv : 1 <= 100) by (vm_compute; discriminate).
  split; [exact H1|]. split; [exact Hv|].
  pose proof (C5_reply_content (Sample.lzSend 10) Sample.this w
                Sample.caller Sample.origin [] payload 9 [] 100
                [x00; x03] H1 Hv) as [Hi Hr].
  split; [exact Hi|]. exact (Hr 1 1 eq_refl).
Defined.

(** C5, the claim as written fails: on an ABA-tagged message that carries
    0 the ball is not decremented and no reply is sent; the call reverts
    and the ball is what it was before the call. *)
Lemma C5_no_reply_on_zero :
  let payload := encodeABA 0 [x00; x03] in
  let w := Sample.world 5 in
  let o := Sample._lzReceive 10 Sample.caller Sample.origin [] payload 9 []
             w in
  decodeABA payload = Ok (0, ABA_TYPE, [x00; x03])
  /\ issued o = []
  /\ result o = Revert (Panic 0x11)
  /\ ball (commit w o) = 5.
Proof.
  intros payload w o. repeat split; vm_compute; reflexivity.
Qed.

Lemma C6_failed_reply_reverts_witness :
  let payload := encodeABA 100 [] in
  let w := Sample.world 5 in
  let o := Sample._lzReceive 10 Sample.underpaid Sample.origin [] payload
             9 [] w in
  decodeABA payload = Ok (100, ABA_TYPE, [])
  /\ 1 <= 100
  /\ Sample.lzSend 10 (reply Sample.this Sample.underpaid Sample.origin
                         100 []) (transport w) = None
  /\ result o = Revert ExternalRevert /\ commit w o = w.
Proof.
  intros payload w o.
  assert (H1 : decodeABA payload = Ok (100, ABA_TYPE, []))
    by (vm_compute; reflexivity).
  assert (Hv : 1 <= 100) by (vm_compute; discriminate).
  assert (Hf : Sample.lzSend 10
                 (reply Sample.this Sample.underpaid Sample.origin 100 [])
                 (transport w) = None) by reflexivity.
  split; [exact H1|]. split; [exact Hv|]. split; [exact Hf|].
  exact (C6_failed_reply_reverts (Sample.lzSend 10) Sample.this w
           Sample.underpaid Sample.origin [] payload 9 [] 100 [] H1 Hv Hf).
Defined.

(** C6, the claim as written fails: the endpoint asks 10 and the receive
    forwards 9.  The reply send fails, the call reverts, and the ball of
    the destination is the 5 it was before the call: neither the received
    100 nor the decremented 99.  With 10 forwarded the call completes
    and the ball is 99. *)
Lemma C6_value_rolled_back :
  let payload := encodeABA 100 [] in
  let w := Sample.world 5 in
  let o := Sample._lzReceive 10 Sample.underpaid Sample.origin [] payload
             9 [] w in
  let paid := Sample._lzReceive 10 Sample.caller Sample.origin [] payload
                9 [] w in
  decodeABA payload = Ok (100, ABA_TYPE, [])
  /\ issued o = [CallSend (reply Sample.this Sample.underpaid
                             Sample.origin 100 [])]
  /\ result o = Revert ExternalRevert
  /\ ball (commit w o) = 5
  /\ ball (commit w o) <> 100 /\ ball (commit w o) <> 99
  /\ ball (commit w paid) = 99.
Proof.
  intros payload w o paid.
  split; [vm_compute; reflexivity|]. split; [vm_compute; reflexivity|].
  split; [vm_compute; reflexivity|]. split; [vm_compute; reflexivity|].
  split; [vm_compute; discriminate|]. split; [vm_compute; discriminate|].
  vm_compute; reflexivity.
Qed.

Lemma C7_lzReceive_gas_witness :
  let w := Sample.world 5 in
  let c := [x00; x03; x01; x00; x11; x01] ++ be_bytes 16 230000 in
  1 <= ball w /\ 180000 + 50000 <= max_uint128
  /\ Sample.combineOptions 40161 ABA_TYPE
       (Sample.addExecutorLzReceiveOption Sample.newOptions (180000 + 50000) 0
        ++ []) = Some c
  /\ map call_options
       (issued (Sample.send 10 Sample.caller 40161 [] 50000 [] w)) = [c]
  /\ map call_options
       (issued (Sample.quote 10 40161 [] 50000 [] false w)) = [c].
Proof.
  intros w c.
  assert (Hb : 1 <= ball w) by (vm_compute; discriminate).
  assert (Hg : 180000 + 50000 <= max_uint128) by (vm_compute; discriminate).
  assert (Hc : Sample.combineOptions 40161 ABA_TYPE
                 (Sample.addExecutorLzReceiveOption Sample.newOptions
                    (180000 + 50000) 0 ++ []) = Some c)
    by (vm_compute; reflexivity).
  split; [exact Hb|]. split; [exact Hg|]. split; [exact Hc|].
  exact (proj2 (proj2
           (C7_lzReceive_gas (Sample.lzSend 10) (Sample.lzQuote 10)
              Sample.combineOptions Sample.newOptions
              Sample.addExecutorLzReceiveOption w Sample.caller 40161 []
              50000 [] false)) c Hb Hg Hc).
Defined.

Lemma C8_quote_builds_as_send_witness :
  let w := Sample.world 5 in
  let s := Sample.send 10 Sample.caller 40161 [x00; x03] 50000 [] w in
  let q := Sample.quote 10 40161 [x00; x03] 50000 [] false w in
  result q = Ok ({| nativeFee := 10; lzTokenFee := 0 |}, w)
  /\ map call_message (issued s) = [encodeABA 4 [x00; x03]]
  /\ map call_message (issued s) = map call_message (issued q)
  /\ map call_options (issued s) = map call_options (issued q)
  /\ commit w q = w.
Proof.
  intros w s q.
  assert (Hq : result q = Ok ({| nativeFee := 10; lzTokenFee := 0 |}, w))
    by (vm_compute; reflexivity).
  destruct (C8_quote_builds_as_send (Sample.lzSend 10) (Sample.lzQuote 10)
              Sample.combineOptions Sample.newOptions
              Sample.addExecutorLzReceiveOption w Sample.caller 40161
              [x00; x03] 50000 [] false)
    as (_ & Hm & Ho & _ & _ & Hw).
  split; [exact Hq|]. split; [vm_compute; reflexivity|].
  split; [exact Hm|]. split; [exact Ho|]. exact Hw.
Defined.

Lemma C10_zero_ball_reverts_witness :
  let w := Sample.world 0 in
  let w2 := Sample.world 5 in
  let payload := encodeABA 0 [] in
  let s := Sample.send 10 Sample.caller 40161 [] 50000 [] w in
  let o := Sample._lzReceive 10 Sample.caller Sample.origin [] payload 9 []
             w2 in
  ball w = 0 /\ decodeABA payload = Ok (0, ABA_TYPE, [])
  /\ s = {| issued := []; result := Revert (Panic 0x11) |}
  /\ commit w s = w /\ ball (commit w s) = 0
  /\ o = {| issued := []; result := Revert (Panic 0x11) |}
  /\ commit w2 o = w2.
Proof.
  intros w w2 payload s o.
  assert (Hb : ball w = 0) by reflexivity.
  assert (Hd : decodeABA payload = Ok (0, ABA_TYPE, []))
    by (vm_compute; reflexivity).
  split; [exact Hb|]. split; [exact Hd|].
  exact (C10_zero_ball_reverts (Sample.lzSend 10) Sample.combineOptions
           Sample.newOptions Sample.addExecutorLzReceiveOption Sample.this
           w w2 Sample.caller 40161 [] 50000 [] Sample.origin [] payload
           9 [] [] Hb Hd).
Defined.

(** * Beyond the claims *)

(** ** More on words and on the decoder *)

Module CodecFacts.
Import EvmFacts Abi.

Lemma byte_of_Z_of_byte (b : byte) : byte_of_Z (Z_of_byte b) = b.
Proof.
  unfold byte_of_Z. rewrite Z.mod_small by apply Z_of_byte_range.
  unfold Z_of_byte. rewrite N2Z.id. now rewrite Byte.of_to_N.
Qed.

(** Writing a value read from [n] bytes gives the bytes back. *)
Lemma be_bytes_be_value (l : bytes) :
  be_bytes (length l) (be_value l) = l.
Proof.
  induction l as [|b l IH] using rev_ind; [reflexivity|].
  rewrite length_app, Nat.add_comm. cbn [length Nat.add be_bytes].
  rewrite be_value_snoc. pose proof (Z_of_byte_range b).
  replace ((be_value l * 256 + Z_of_byte b) / 256) with (be_value l)
    by (apply Z.div_unique with (r := Z_of_byte b); lia).
  replace ((be_value l * 256 + Z_of_byte b) mod 256) with (Z_of_byte b)
    by (apply Z.mod_unique with (q := be_value l); lia).
  now rewrite IH, byte_of_Z_of_byte.
Qed.

Lemma calldataload_range (data : bytes) (p : Z) :
  0 <= calldataload data p <= max_uint256.
Proof.
  unfold calldataload.
  pose proof (be_value_range
                (firstn 32 (skipn (Z.to_nat p) data ++ zeros 32))) as H.
  assert (L : len (firstn 32 (skipn (Z.to_nat p) data ++ zeros 32)) = 32).
  { unfold len, zeros. rewrite length_firstn, length_app, repeat_length. lia. }
  rewrite L in H. change (256 ^ 32) with two256 in H.
  unfold max_uint256, two256 in *. lia.
Qed.

(** Inside the buffer [calldatacopy] is a plain slice. *)
Lemma calldatacopy_inside (data : bytes) (p n : Z) :
  0 <= p -> 0 <= n -> p + n <= len data ->
  calldatacopy data p n = firstn (Z.to_nat n) (skipn (Z.to_nat p) data)
  /\ len (calldatacopy data p n) = n.
Proof.
  intros Hp Hn Hin. unfold calldatacopy, len in *.
  assert (Hl : (Z.to_nat n <= length (skipn (Z.to_nat p) data))%nat)
    by (rewrite length_skipn; lia).
  rewrite firstn_app.
  replace (Z.to_nat n - length (skipn (Z.to_nat p) data))%nat with 0%nat
    by lia.
  cbn [firstn]. rewrite app_nil_r. split; [reflexivity|].
  rewrite length_firstn. lia.
Qed.

(** Number of bytes of the data and its padding. *)
Lemma padded_length (n : nat) :
  Z.of_nat n + Z.of_nat (padding n) = 32 * ((Z.of_nat n + 31) / 32).
Proof.
  unfold padding.
  pose proof (Nat.mod_upper_bound n 32 ltac:(discriminate)) as Hm.
  rewrite Nat2Z.inj_mod, Nat2Z.inj_sub by lia. rewrite Nat2Z.inj_mod.
  change (Z.of_nat 32) with 32.
  generalize (Z.of_nat n) (Nat2Z.is_nonneg n). intros N HN.
  Z.div_mod_to_equations. lia.
Qed.

(** The three-slot decoder on a canonical head and tail followed by any
    bytes at all. *)
Lemma decode_tuple_with_trailer (v : Z) (r junk : bytes) :
  0 <= v < two256 ->
  len r <= max_uint64 ->
  len junk <= max_uint64 ->
  decode_uint256_uint16_bytes
    (be_bytes 32 v ++ be_bytes 32 2 ++ be_bytes 32 96
       ++ be_bytes 32 (len r) ++ r ++ junk)
  = Ok (v, 2, r).
Proof.
  intros Hv Hr Hj.
  pose proof (len_nonneg r) as Hr0. pose proof (len_nonneg junk) as Hj0.
  assert (H64 : max_uint64 = 18446744073709551615) by reflexivity.
  assert (H255 : max_uint64 + max_uint64 + 1000 < 2 ^ 255) by reflexivity.
  assert (H256 : 2 ^ 255 < two256) by reflexivity.
  unfold decode_uint256_uint16_bytes, decode_t_uint16, decode_t_bytes,
    decode_available_length_bytes.
  rewrite AbiFacts.layout_len, AbiFacts.layout_slot0, AbiFacts.layout_slot1,
    AbiFacts.layout_slot2, AbiFacts.layout_slot3 by apply length_be_bytes.
  rewrite (be_value_word v Hv).
  rewrite (be_value_word 2), (be_value_word 96), (be_value_word (len r))
    by lia.
  unfold slt256, gt256.
  rewrite (signed256_small (128 + len r + _)) by lia.
  change (signed256 96) with 96.
  change (add256 96 31) with 127. change (signed256 127) with 127.
  change (add256 96 32) with 128.
  rewrite (add256_small 128 (len r)) by lia.
  change (2 =? Z.land 2 65535) with true. cbn [rbind].
  destruct (Z.ltb_spec (128 + len r + len junk) 96); [lia|].
  destruct (Z.ltb_spec max_uint64 96); [lia|].
  destruct (Z.ltb_spec 127 (128 + len r + len junk)); [|lia].
  cbn [negb].
  destruct (Z.ltb_spec max_uint64 (len r)); [lia|].
  destruct (Z.ltb_spec (128 + len r + len junk) (128 + len r)); [lia|].
  rewrite AbiFacts.layout_tail by apply length_be_bytes. reflexivity.
Qed.

Lemma len_encodeABA (v : Z) (r : bytes) :
  len (Uint256MsgCodec.encodeABA v r)
  = 128 + 32 * ((len r + 31) / 32).
Proof.
  unfold Uint256MsgCodec.encodeABA, encode_uint256_uint16_bytes.
  rewrite AbiFacts.layout_len by apply length_be_bytes.
  unfold len at 2 3. unfold zeros. rewrite repeat_length.
  pose proof (padded_length (length r)). unfold len. lia.
Qed.

Lemma len_encodeABA_not_32 (v : Z) (r : bytes) :
  len (Uint256MsgCodec.encodeABA v r) <> 32.
Proof.
  rewrite len_encodeABA. pose proof (len_nonneg r).
  Z.div_mod_to_equations. lia.
Qed.

Lemma decodeABA_encodeABA (v : Z) (r : bytes) :
  0 <= v <= max_uint256 -> len r <= max_uint64 ->
  Uint256MsgCodec.decodeABA (Uint256MsgCodec.encodeABA v r)
  = Ok (v, Uint256MsgCodec.ABA_TYPE, r).
Proof.
  intros Hv Hr.
  assert (Hv' : 0 <= v < two256) by (unfold max_uint256, two256 in *; lia).
  pose proof (len_encodeABA_not_32 v r) as Hl.
  unfold Uint256MsgCodec.decodeABA.
  destruct (Z.eqb_spec (len (Uint256MsgCodec.encodeABA v r)) 32) as [E|_];
    [contradiction|].
  unfold Uint256MsgCodec.encodeABA, Uint256MsgCodec.ABA_TYPE.
  exact (AbiFacts.decode_encode_tuple v r Hv' Hr).
Qed.

Lemma decodeABA_word (w : bytes) :
  length w = 32%nat ->
  Uint256MsgCodec.decodeABA w = Ok (be_value w, 0, []).
Proof.
  intro Hw. unfold Uint256MsgCodec.decodeABA, len. rewrite Hw.
  change (Z.of_nat 32 =? 32) with true. cbv iota.
  now rewrite (AbiFacts.decode_uint256_word _ Hw).
Qed.

(** What [decodeABA] returns is a uint256, a uint16 and at most 2^64 - 1
    bytes. *)
Lemma decodeABA_Ok_range (msg : bytes) (v t : Z) (r : bytes) :
  Uint256MsgCodec.decodeABA msg = Ok (v, t, r) ->
  0 <= v <= max_uint256 /\ 0 <= t <= 0xffff /\ len r <= max_uint64.
Proof.
  unfold Uint256MsgCodec.decodeABA. intro H.
  destruct (len msg =? 32).
  - unfold decode_uint256 in H.
    destruct (slt256 (len msg) 32); [discriminate|].
    cbn [rbind] in H. injection H as <- <- <-.
    split; [apply calldataload_range|]. split; [lia|].
    vm_compute. discriminate.
  - apply DecodeBounds.tuple_Ok in H. cbv zeta in H.
    destruct H as (-> & _ & Ht & _ & Hn & -> & _).
    split; [apply calldataload_range|]. split; [exact Ht|].
    unfold calldatacopy, len. rewrite length_firstn. lia.
Qed.

End CodecFacts.

(** ** Codec, beyond the claims *)

(** X1.  The encoding of an ABA message is 128 bytes of head and length
    word, and the return options rounded up to whole 32-byte words: its
    length is a multiple of 32, at least 128, and never the 32 of a
    vanilla message. *)
Theorem encodeABA_length (v : Z) (r : bytes) :
  len (encodeABA v r) = 128 + 32 * ((len r + 31) / 32)
  /\ len (encodeABA v r) mod 32 = 0
  /\ 128 <= len (encodeABA v r)
  /\ len (encodeABA v r) <> len (encode v).
Proof.
  rewrite CodecFacts.len_encodeABA.
  unfold encode, Abi.encode_uint256. rewrite EvmFacts.len_be_bytes.
  pose proof (EvmFacts.len_nonneg r).
  repeat split; Z.div_mod_to_equations; lia.
Qed.

(** X2.  A message written by the v1 codec is read by [decodeABA] of v2
    as its value with msgType 0 and no return options. *)
Theorem v1_message_read_by_v2 (v : Z) (Hv : 0 <= v <= max_uint256) :
  decodeABA (Uint256MsgCodecV1.encode v) = Ok (v, 0, []).
Proof.
  unfold Uint256MsgCodecV1.encode, Abi.encode_uint256.
  rewrite CodecFacts.decodeABA_word by apply EvmFacts.length_be_bytes.
  rewrite EvmFacts.be_value_word; [reflexivity|].
  unfold max_uint256, two256 in *. lia.
Qed.

Lemma v1_message_read_by_v2_witness :
  (0 <= 99 <= max_uint256)
  /\ decodeABA (Uint256MsgCodecV1.encode 99) = Ok (99, 0, []).
Proof.
  assert (H : 0 <= 99 <= max_uint256) by (vm_compute; split; discriminate).
  split; [exact H|]. exact (v1_message_read_by_v2 99 H).
Defined.

(** X3.  No ABA message passes a vanilla decoder: [decode] of v1 and
    [decode] of v2 both revert with [InvalidMsgLength] on every output of
    [encodeABA]. *)
Theorem aba_message_refused_by_vanilla_decode (v : Z) (r : bytes) :
  Uint256MsgCodecV1.decode (encodeABA v r) = Revert InvalidMsgLength
  /\ decode (encodeABA v r) = Revert InvalidMsgLength.
Proof.
  pose proof (CodecFacts.len_encodeABA_not_32 v r) as H.
  unfold Uint256MsgCodecV1.decode, decode.
  destruct (Z.eqb_spec (len (encodeABA v r)) 32); [contradiction|].
  split; reflexivity.
Qed.

(** X4.  Whatever [decodeABA] returns is well typed: the value fits 256
    bits, the message type fits 16 bits (a type slot with higher bits set
    is rejected, not cut down), and the return options are at most
    2^64 - 1 bytes. *)
Theorem decodeABA_result_typed (_msg : bytes) (v t : Z) (r : bytes)
    (Hd : decodeABA _msg = Ok (v, t, r)) :
  0 <= v <= max_uint256 /\ 0 <= t <= 0xffff /\ len r <= max_uint64.
Proof. exact (CodecFacts.decodeABA_Ok_range _msg v t r Hd). Qed.

Lemma decodeABA_result_typed_witness :
  let _msg := encodeABA 7 [x00; x03] in
  decodeABA _msg = Ok (7, 2, [x00; x03])
  /\ 0 <= 7 <= max_uint256 /\ 0 <= 2 <= 0xffff
  /\ len [x00; x03] <= max_uint64.
Proof.
  intro _msg.
  assert (H : decodeABA _msg = Ok (7, 2, [x00; x03]))
    by (vm_compute; reflexivity).
  split; [exact H|]. exact (decodeABA_result_typed _msg 7 2 [x00; x03] H).
Defined.

(** X5.  [decodeABA] does not look at what follows the return options:
    a canonical head, length word and data followed by any bytes (no
    padding, or padding that is not zero) decodes like the canonical
    encoding. *)
Theorem decodeABA_ignores_trailer (v : Z) (r junk : bytes)
    (Hv : 0 <= v <= max_uint256)
    (Hr : len r <= max_uint64) (Hj : len junk <= max_uint64) :
  decodeABA (be_bytes 32 v ++ be_bytes 32 ABA_TYPE ++ be_bytes 32 96
               ++ be_bytes 32 (len r) ++ r ++ junk)
  = Ok (v, ABA_TYPE, r).
Proof.
  assert (Hv' : 0 <= v < two256) by (unfold max_uint256, two256 in *; lia).
  unfold decodeABA, ABA_TYPE.
  assert (Hl : len (be_bytes 32 v ++ be_bytes 32 2 ++ be_bytes 32 96
                      ++ be_bytes 32 (len r) ++ r ++ junk) <> 32).
  { rewrite AbiFacts.layout_len by apply EvmFacts.length_be_bytes.
    pose proof (EvmFacts.len_nonneg r). pose proof (EvmFacts.len_nonneg junk).
    lia. }
  destruct (Z.eqb_spec (len (be_bytes 32 v ++ be_bytes 32 2 ++ be_bytes 32 96
                               ++ be_bytes 32 (len r) ++ r ++ junk)) 32);
    [contradiction|].
  exact (CodecFacts.decode_tuple_with_trailer v r junk Hv' Hr Hj).
Qed.

Lemma decodeABA_ignores_trailer_witness :
  let r := [x00; x03] in
  let junk := [xff] in
  (0 <= 7 <= max_uint256) /\ len r <= max_uint64 /\ len junk <= max_uint64
  /\ decodeABA (be_bytes 32 7 ++ be_bytes 32 ABA_TYPE ++ be_bytes 32 96
                  ++ be_bytes 32 (len r) ++ r ++ junk)
     = Ok (7, ABA_TYPE, r).
Proof.
  intros r junk.
  assert (H1 : 0 <= 7 <= max_uint256) by (vm_compute; split; discriminate).
  assert (H2 : len r <= max_uint64) by (vm_compute; discriminate).
  assert (H3 : len junk <= max_uint64) by (vm_compute; discriminate).
  split; [exact H1|]. split; [exact H2|]. split; [exact H3|].
  exact (decodeABA_ignores_trailer 7 r junk H1 H2 H3).
Defined.

(** X6.  The return options [decodeABA] gives for a buffer that is not
    32 bytes long are a slice of that buffer: the declared number of
    bytes, starting 32 bytes after the tail offset and ending inside the
    buffer; no byte comes from past its end. *)
Theorem decodeABA_options_inside (_msg : bytes) (v t : Z) (r : bytes)
    (Hlen : len _msg <> 32) (Hmax : len _msg <= max_uint64)
    (Hd : decodeABA _msg = Ok (v, t, r)) :
  let offset := calldataload _msg 64 in
  let n := calldataload _msg offset in
  offset + 32 + n <= len _msg
  /\ r = firstn (Z.to_nat n) (skipn (Z.to_nat (offset + 32)) _msg)
  /\ len r = n
  /\ v = calldataload _msg 0 /\ t = calldataload _msg 32.
Proof.
  intros offset n. unfold decodeABA in Hd.
  destruct (Z.eqb_spec (len _msg) 32); [contradiction|].
  apply DecodeBounds.tuple_Ok in Hd. cbv zeta in Hd.
  fold offset in Hd. fold n in Hd.
  destruct Hd as (Hv & Ht & _ & Ho & Hn & Hr & Hsmall & _).
  assert (H255 : max_uint64 < 2 ^ 255) by reflexivity.
  destruct (Hsmall ltac:(lia)) as (_ & _ & Hend).
  destruct (CodecFacts.calldatacopy_inside _msg (offset + 32) n
              ltac:(lia) ltac:(lia) Hend) as [Hs Hl].
  rewrite <- Hr in Hs, Hl. repeat split; assumption.
Qed.

Lemma decodeABA_options_inside_witness :
  let _msg := be_bytes 32 100 ++ be_bytes 32 2 ++ be_bytes 32 32 in
  len _msg <> 32 /\ len _msg <= max_uint64
  /\ decodeABA _msg = Ok (100, 2, [x00; x00])
  /\ calldataload _msg 64 + 32 + calldataload _msg (calldataload _msg 64)
     <= len _msg
  /\ len [x00; x00] = calldataload _msg (calldataload _msg 64).
Proof.
  intro _msg.
  assert (H1 : len _msg <> 32) by (vm_compute; discriminate).
  assert (H2 : len _msg <= max_uint64) by (vm_compute; discriminate).
  assert (H3 : decodeABA _msg = Ok (100, 2, [x00; x00]))
    by (vm_compute; reflexivity).
  split; [exact H1|]. split; [exact H2|]. split; [exact H3|].
  destruct (decodeABA_options_inside _msg 100 2 [x00; x00] H1 H2 H3)
    as (Ha & _ & Hb & _).
  split; [exact Ha | exact Hb].
Defined.

(** X7.  The vanilla encoding is canonical: when [decode] accepts a
    buffer, [encode] of the value it returns is that buffer, byte for
    byte (in v1 and in v2). *)
Theorem decode_then_encode (_msg : bytes) (v : Z)
    (Hd : decode _msg = Ok v) :
  encode v = _msg /\ Uint256MsgCodecV1.decode _msg = Ok v
  /\ Uint256MsgCodecV1.encode v = _msg.
Proof.
  assert (He : encode v = _msg).
  { unfold decode in Hd.
    destruct (Z.eqb_spec (len _msg) 32) as [E|E]; [|discriminate].
    cbn [negb] in Hd.
    assert (Hl : length _msg = 32%nat) by (unfold len in E; lia).
    rewrite <- Hl, firstn_all in Hd.
    rewrite (AbiFacts.decode_uint256_word _ Hl) in Hd. injection Hd as <-.
    unfold encode, Abi.encode_uint256. rewrite <- Hl.
    apply CodecFacts.be_bytes_be_value. }
  split; [exact He|]. split; [exact Hd | exact He].
Qed.

Lemma decode_then_encode_witness :
  let _msg := repeat xff 32 in
  decode _msg = Ok max_uint256 /\ encode max_uint256 = _msg.
Proof.
  intro _msg.
  assert (H : decode _msg = Ok max_uint256) by (vm_compute; reflexivity).
  split; [exact H|]. exact (proj1 (decode_then_encode _msg max_uint256 H)).
Defined.

(** X8.  [encodeABA] maps different messages to different bytes: equal
    encodings have equal values and equal return options. *)
Theorem encodeABA_injective (v v' : Z) (r r' : bytes)
    (Hv : 0 <= v <= max_uint256) (Hv' : 0 <= v' <= max_uint256)
    (Hr : len r <= max_uint64) (Hr' : len r' <= max_uint64)
    (He : encodeABA v r = encodeABA v' r') :
  v = v' /\ r = r'.
Proof.
  pose proof (CodecFacts.decodeABA_encodeABA v r Hv Hr) as H.
  rewrite He, (CodecFacts.decodeABA_encodeABA v' r' Hv' Hr') in H.
  injection H as -> ->. split; reflexivity.
Qed.

Lemma encodeABA_injective_witness :
  (0 <= 5 <= max_uint256) /\ len [x01] <= max_uint64
  /\ encodeABA 5 [x01] = encodeABA (2 + 3) ([] ++ [x01])
  /\ 5 = 2 + 3 /\ [x01] = [] ++ [x01].
Proof.
  assert (H1 : 0 <= 5 <= max_uint256) by (vm_compute; split; discriminate).
  assert (H2 : len [x01] <= max_uint64) by (vm_compute; discriminate).
  assert (H3 : encodeABA 5 [x01] = encodeABA (2 + 3) ([] ++ [x01]))
    by reflexivity.
  split; [exact H1|]. split; [exact H2|]. split; [exact H3|].
  exact (encodeABA_injective 5 (2 + 3) [x01] ([] ++ [x01]) H1 H1 H2 H2 H3).
Defined.

(** ** More on single calls *)

Module EngineMore.
Import Uint256MsgCodec MyOApp EngineFacts.

#[local] Arguments encode : simpl never.
#[local] Arguments encodeABA : simpl never.
#[local] Arguments decodeABA : simpl never.

Section Runs.
Context {Transport Receipt : Type}.
Variable lzSend : SendRequest -> Transport -> option (Receipt * Transport).
Variable lzQuote : QuoteRequest -> Transport -> option MessagingFee.
Variable combine : Z -> Z -> bytes -> option bytes.
Variable newOptions : bytes.
Variable addOption : bytes -> Z -> Z -> bytes.
Variable this : address.

Lemma send_runs (w : World) msg dst ro g opts c :
  1 <= ball w -> 180000 + g <= max_uint128 ->
  combine dst ABA_TYPE (packed newOptions addOption g opts) = Some c ->
  let req := {| s_dstEid := dst; s_message := encodeABA (ball w - 1) ro;
                s_options := c;
                s_fee := {| nativeFee := msg_value msg; lzTokenFee := 0 |};
                s_refundAddress := msg_sender msg |} in
  send lzSend combine newOptions addOption msg dst ro g opts w
  = {| issued := [CallSend req];
       result :=
         match lzSend req (transport w) with
         | Some (receipt, t') =>
             Ok (receipt,
                 {| ball := ball w - 1;
                    events := events w
                      ++ [BallServed (msg_sender msg) dst (ball w)
                            (ball w - 1)];
                    transport := t' |})
         | None => Revert ExternalRevert
         end |}.
Proof.
  intros Hb Hg Hc req. run. destruct (Z.ltb_spec (ball w) 1); [lia|]. run.
  destruct (Z.ltb_spec max_uint128 (180000 + g)); [lia|]. run.
  unfold packed in Hc. rewrite Hc. run. subst req.
  destruct (lzSend _ (transport w)) as [[rc t']|]; reflexivity.
Qed.

Lemma receive_undecoded (w : World) msg origin guid payload executor extra e :
  decodeABA payload = Revert e ->
  _lzReceive lzSend this msg origin guid payload executor extra w
  = {| issued := []; result := Revert e |}.
Proof. intro Hd. run. rewrite Hd. reflexivity. Qed.

(** Every way [send] can end. *)
Lemma send_outcomes (w : World) msg dst ro g opts :
  let o := send lzSend combine newOptions addOption msg dst ro g opts w in
  (exists e, result o = Revert e)
  \/ (exists receipt t' c,
        1 <= ball w
        /\ issued o
           = [CallSend {| s_dstEid := dst;
                          s_message := encodeABA (ball w - 1) ro;
                          s_options := c;
                          s_fee := {| nativeFee := msg_value msg;
                                      lzTokenFee := 0 |};
                          s_refundAddress := msg_sender msg |}]
        /\ result o
           = Ok (receipt,
                 {| ball := ball w - 1;
                    events := events w
                      ++ [BallServed (msg_sender msg) dst (ball w)
                            (ball w - 1)];
                    transport := t' |})).
Proof.
  intro o. subst o.
  destruct (Z_lt_le_dec (ball w) 1) as [Hb|Hb].
  { left. rewrite send_zero by assumption. eexists. reflexivity. }
  destruct (Z_lt_le_dec max_uint128 (180000 + g)) as [Hg|Hg].
  { left. rewrite send_gas_overflow by assumption. eexists. reflexivity. }
  destruct (combine dst ABA_TYPE (packed newOptions addOption g opts))
    as [c|] eqn:Hc.
  2:{ left. rewrite send_combine_fails by assumption. eexists. reflexivity. }
  rewrite (send_runs w msg dst ro g opts c Hb Hg Hc).
  destruct (lzSend _ (transport w)) as [[rc t']|] eqn:Hs.
  - right. exists rc, t', c. cbn [issued result].
    split; [assumption|]. split; reflexivity.
  - left. cbn [result]. eexists. reflexivity.
Qed.

(** Every way [_lzReceive] can end. *)
Lemma receive_outcomes (w : World) msg origin guid payload executor extra :
  let o := _lzReceive lzSend this msg origin guid payload executor extra w in
  (issued o = [] /\ exists e, result o = Revert e)
  \/ (exists v t r,
        decodeABA payload = Ok (v, t, r) /\ t <> ABA_TYPE
        /\ issued o = []
        /\ result o
           = Ok (tt, {| ball := v;
                        events := events w
                          ++ [BallReceived executor (ball w) v];
                        transport := transport w |}))
  \/ (exists v r,
        decodeABA payload = Ok (v, ABA_TYPE, r) /\ 1 <= v
        /\ issued o = [CallSend (reply this msg origin v r)]
        /\ result o
           = match lzSend (reply this msg origin v r) (transport w) with
             | Some (_, t') =>
                 Ok (tt, {| ball := v - 1;
                            events := events w
                              ++ [BallReceived executor (ball w) v;
                                  ReturnMessageSent (srcEid origin) (v - 1)];
                            transport := t' |})
             | None => Revert ExternalRevert
             end).
Proof.
  intro o. subst o.
  destruct (decodeABA payload) as [[[v t] r]|e] eqn:Hd.
  2:{ left. rewrite (receive_undecoded _ _ _ _ _ _ _ _ Hd).
      split; [reflexivity|]. eexists. reflexivity. }
  destruct (Z.eq_dec t ABA_TYPE) as [->|Ht].
  - destruct (Z_lt_le_dec v 1) as [Hv|Hv].
    + left. assert (v = 0) as ->.
      { pose proof (CodecFacts.decodeABA_Ok_range _ _ _ _ Hd). lia. }
      rewrite (receive_aba_zero _ _ _ _ _ _ _ _ _ _ Hd).
      split; [reflexivity|]. eexists. reflexivity.
    + right. right. exists v, r.
      rewrite (receive_aba _ _ _ _ _ _ _ _ _ _ _ Hd Hv).
      repeat split; assumption.
  - right. left. exists v, t, r.
    rewrite (receive_other _ _ _ _ _ _ _ _ _ _ _ _ Hd Ht).
    repeat split; assumption.
Qed.

End Runs.
End EngineMore.

(** ** Engine, beyond the claims *)

Section EngineExtras.
Context {Transport Receipt : Type}.
Variable lzSend : SendRequest -> Transport -> option (Receipt * Transport).
Variable lzQuote : QuoteRequest -> Transport -> option MessagingFee.
Variable combine : Z -> Z -> bytes -> option bytes.
Variable newOptions : bytes.
Variable addOption : bytes -> Z -> Z -> bytes.
Variable this : address.

Local Notation "'receive'" := (_lzReceive lzSend this).
Local Notation "'send''" := (send lzSend combine newOptions addOption).
Local Notation "'quote''" := (quote lzQuote combine newOptions addOption).
Local Notation "'step'" :=
  (Chain.apply_tx lzSend combine newOptions addOption this).
Local Notation "'steps'" :=
  (Chain.run_txs lzSend combine newOptions addOption this).

(** X9.  [send] is all or nothing.  Either it completes, and then the
    ball was at least 1, is now exactly one less, one [BallServed(sender,
    dstEid, old, new)] event was added and exactly one send went to the
    transport, paid with [msg.value] and refunding the caller; or it
    reverts and the contract is left as it was. *)
Theorem send_all_or_nothing (w : World) msg dst ro g opts :
  let o := send' msg dst ro g opts w in
  (exists receipt w' req,
      result o = Ok (receipt, w')
      /\ 1 <= ball w /\ ball w' = ball w - 1
      /\ events w'
         = events w ++ [BallServed (msg_sender msg) dst (ball w) (ball w - 1)]
      /\ issued o = [CallSend req]
      /\ s_dstEid req = dst
      /\ s_message req = encodeABA (ball w - 1) ro
      /\ s_fee req = {| nativeFee := msg_value msg; lzTokenFee := 0 |}
      /\ s_refundAddress req = msg_sender msg)
  \/ (exists e, result o = Revert e /\ commit w o = w).
Proof.
  intro o. subst o.
  destruct (EngineMore.send_outcomes lzSend combine newOptions addOption
              w msg dst ro g opts) as [[e He]|(rc & t' & c & Hb & Hi & Hr)].
  - right. exists e. unfold commit. rewrite He. split; reflexivity.
  - left. eexists rc, _, _. rewrite Hr, Hi.
    repeat split; try reflexivity. exact Hb.
Qed.

(** X10.  When the ball is at least 1, 180000 + g fits uint128,
    [combineOptions] returns and the transport takes the message, [send]
    completes: the ball is one less, the event records the old and the
    new ball, and the call returns the receipt of the transport. *)
Theorem send_completes (w : World) msg dst ro g opts c receipt t'
    (Hb : 1 <= ball w) (Hg : 180000 + g <= max_uint128)
    (Hc : combine dst ABA_TYPE (addOption newOptions (180000 + g) 0 ++ opts)
          = Some c)
    (Hs : lzSend {| s_dstEid := dst; s_message := encodeABA (ball w - 1) ro;
                    s_options := c;
                    s_fee := {| nativeFee := msg_value msg; lzTokenFee := 0 |};
                    s_refundAddress := msg_sender msg |} (transport w)
          = Some (receipt, t')) :
  result (send' msg dst ro g opts w)
  = Ok (receipt,
        {| ball := ball w - 1;
           events := events w
             ++ [BallServed (msg_sender msg) dst (ball w) (ball w - 1)];
           transport := t' |}).
Proof.
  rewrite (EngineMore.send_runs _ _ _ _ _ _ _ _ _ _ _ Hb Hg Hc).
  cbn [result]. now rewrite Hs.
Qed.

(** X11.  A payload of exactly 32 bytes is always received: the call
    cannot revert, nothing is sent, the ball becomes the big-endian value
    of the payload and one [BallReceived(executor, old, new)] event is
    added. *)
Theorem receive_vanilla (w : World) msg origin guid payload executor extra
    (Hlen : length payload = 32%nat) :
  receive msg origin guid payload executor extra w
  = {| issued := [];
       result := Ok (tt, {| ball := be_value payload;
                            events := events w
                              ++ [BallReceived executor (ball w)
                                    (be_value payload)];
                            transport := transport w |}) |}.
Proof.
  apply EngineFacts.receive_other with (t := 0) (r := []).
  - now apply CodecFacts.decodeABA_word.
  - discriminate.
Qed.

(** X12.  A payload that is not 32 bytes long and is shorter than 96
    bytes, or whose tail offset or declared tail length leaves the
    buffer, is not received: [_lzReceive] reverts before it touches the
    ball, sends nothing, and the contract is left as it was. *)
Theorem receive_malformed (w : World) msg origin guid payload executor extra
    (Hlen : len payload <> 32)
    (Hbad : len payload < 96
            \/ len payload - 32 < calldataload payload 64
            \/ len payload < calldataload payload 64 + 32
                 + calldataload payload (calldataload payload 64)) :
  let o := receive msg origin guid payload executor extra w in
  issued o = [] /\ (exists e, result o = Revert e) /\ commit w o = w.
Proof.
  intro o. subst o.
  destruct (decodeABA payload) as [[[v t] r]|e] eqn:Hd.
  - exfalso. unfold decodeABA in Hd.
    destruct (Z.eqb_spec (len payload) 32); [contradiction|].
    apply DecodeBounds.tuple_Ok in Hd. cbv zeta in Hd.
    destruct Hd as (_ & _ & _ & Hoff & Hn & _ & Hsmall & Hbig).
    assert (H255 : max_uint64 + max_uint64 + 1000 < 2 ^ 255) by reflexivity.
    destruct (Z_lt_le_dec (len payload) (2 ^ 255)) as [Hs|Hs].
    + specialize (Hsmall Hs). lia.
    + specialize (Hbig Hs). lia.
  - unfold commit. rewrite (EngineMore.receive_undecoded _ _ _ _ _ _ _ _ _ _ Hd).
    split; [reflexivity|]. split; [eexists|]; reflexivity.
Qed.

(** X13.  The ball stays a uint256: over any sequence of [send] and
    [lzReceive] transactions, with any inputs and whatever the transport
    answers, a ball in [0, 2^256 - 1] stays in [0, 2^256 - 1]. *)
Theorem ball_stays_uint256 (txs : list Chain.Tx) (w : World)
    (Hw : Chain.ball_in_range w) :
  Chain.ball_in_range (steps txs w).
Proof.
  unfold Chain.run_txs. revert w Hw.
  induction txs as [|tx txs IH]; intros w Hw; [exact Hw|].
  cbn [fold_left]. apply IH. unfold Chain.ball_in_range in *.
  destruct tx as [msg d ro g opts | msg o guid payload ex extra];
    cbn [Chain.apply_tx]; unfold commit.
  - destruct (EngineMore.send_outcomes lzSend combine newOptions addOption
                w msg d ro g opts) as [[e He]|(rc & t' & c & Hb & _ & Hr)].
    + rewrite He. exact Hw.
    + rewrite Hr. cbn [ball]. lia.
  - destruct (EngineMore.receive_outcomes lzSend this w msg o guid payload
                ex extra)
      as [[_ [e He]]|[(v & t & r & Hd & _ & _ & Hr)|(v & r & Hd & Hv & _ & Hr)]].
    + rewrite He. exact Hw.
    + rewrite Hr. cbn [ball].
      now pose proof (CodecFacts.decodeABA_Ok_range _ _ _ _ Hd).
    + rewrite Hr. pose proof (CodecFacts.decodeABA_Ok_range _ _ _ _ Hd).
      destruct (lzSend _ (transport w)) as [[rc t']|]; cbn [ball]; lia.
Qed.

(** X14.  [send] only lowers the ball, one per call that completes: over
    a sequence of [send] transactions the ball never rises and falls by
    no more than the number of transactions. *)
Theorem sends_lower_the_ball (txs : list Chain.Tx) (w : World)
    (Hs : forall tx, In tx txs ->
          exists msg d ro g opts, tx = Chain.TxSend msg d ro g opts) :
  ball w - Z.of_nat (length txs) <= ball (steps txs w) <= ball w.
Proof.
  unfold Chain.run_txs. revert w.
  induction txs as [|tx txs IH]; intro w; [cbn; lia|].
  cbn [fold_left length].
  assert (Hrest : forall tx', In tx' txs ->
            exists msg d ro g opts, tx' = Chain.TxSend msg d ro g opts)
    by (intros tx' Hin; apply Hs; now right).
  specialize (IH Hrest (step tx w)).
  destruct (Hs tx (or_introl eq_refl)) as (msg & d & ro & g & opts & ->).
  assert (Hstep : ball w - 1 <= ball (step (Chain.TxSend msg d ro g opts) w)
                  <= ball w).
  { cbn [Chain.apply_tx]. unfold commit.
    destruct (EngineMore.send_outcomes lzSend combine newOptions addOption
                w msg d ro g opts) as [[e He]|(rc & t' & c & Hb & _ & Hr)].
    - rewrite He. lia.
    - rewrite Hr. cbn [ball]. lia. }
  lia.
Qed.

(** X15.  The reply of [_lzReceive] ends the exchange: whatever message
    a receive hands to the transport is 32 bytes long, and any endpoint
    that is delivered it, in any state, receives it without reverting and
    without sending anything. *)
Theorem reply_is_not_answered (w : World) msg origin guid payload executor
    extra (req : SendRequest)
    (Hin : In (CallSend req)
             (issued (receive msg origin guid payload executor extra w))) :
  length (s_message req) = 32%nat
  /\ forall (w2 : World) msg2 origin2 guid2 executor2 extra2,
       let o2 := receive msg2 origin2 guid2 (s_message req) executor2 extra2
                   w2 in
       issued o2 = []
       /\ result o2
          = Ok (tt, {| ball := be_value (s_message req);
                       events := events w2
                         ++ [BallReceived executor2 (ball w2)
                               (be_value (s_message req))];
                       transport := transport w2 |}).
Proof.
  assert (Hl : length (s_message req) = 32%nat).
  { destruct (EngineMore.receive_outcomes lzSend this w msg origin guid
                payload executor extra)
      as [[E _]|[(v & t & r & _ & _ & E & _)|(v & r & _ & _ & E & _)]];
      rewrite E in Hin; try contradiction.
    destruct Hin as [H|[]]. injection H as <-.
    apply EvmFacts.length_be_bytes. }
  split; [exact Hl|]. intros w2 msg2 origin2 guid2 executor2 extra2 o2.
  subst o2.
  rewrite (EngineFacts.receive_other lzSend this w2 msg2 origin2 guid2
             (s_message req) executor2 extra2 (be_value (s_message req)) 0 []
             (CodecFacts.decodeABA_word _ Hl) ltac:(discriminate)).
  split; reflexivity.
Qed.

(** X16.  [quote] returns a fee exactly when the ball is at least 1,
    180000 + g fits uint128, [combineOptions] returns, and the endpoint
    quotes the ABA message of ball - 1 with those options; the fee is the
    endpoint's, and the state is untouched.  In every other case it
    reverts. *)
Theorem quote_result (w : World) dst ro g opts pay fee (w' : World) :
  result (quote' dst ro g opts pay w) = Ok (fee, w')
  <-> (w' = w /\ 1 <= ball w /\ 180000 + g <= max_uint128
       /\ exists c,
            combine dst ABA_TYPE (addOption newOptions (180000 + g) 0 ++ opts)
            = Some c
            /\ lzQuote {| q_dstEid := dst;
                          q_message := encodeABA (ball w - 1) ro;
                          q_options := c; q_payInLzToken := pay |}
                 (transport w) = Some fee).
Proof.
  split.
  - intro H.
    destruct (Z_lt_le_dec (ball w) 1) as [Hb|Hb].
    { rewrite EngineFacts.quote_zero in H by assumption. discriminate. }
    destruct (Z_lt_le_dec max_uint128 (180000 + g)) as [Hg|Hg].
    { rewrite EngineFacts.quote_gas_overflow in H by assumption.
      discriminate. }
    destruct (combine dst ABA_TYPE (packed newOptions addOption g opts))
      as [c|] eqn:Hc.
    2:{ rewrite EngineFacts.quote_combine_fails in H by assumption.
        discriminate. }
    rewrite (EngineFacts.quote_runs _ _ _ _ _ _ _ _ _ _ _ Hb Hg Hc) in H.
    cbn [result] in H.
    destruct (lzQuote _ (transport w)) as [fee'|] eqn:Hq; [|discriminate].
    injection H as <- <-.
    split; [reflexivity|]. split; [assumption|]. split; [assumption|].
    exists c. split; [exact Hc | exact Hq].
  - intros (-> & Hb & Hg & c & Hc & Hq).
    rewrite (EngineFacts.quote_runs _ _ _ _ _ _ _ _ _ _ _ Hb Hg Hc).
    cbn [result]. now rewrite Hq.
Qed.

End EngineExtras.

(** ** Two endpoints *)

Section RoundTrip.
Context {TransportA ReceiptA TransportB ReceiptB : Type}.
Variable lzSendA : SendRequest -> TransportA -> option (ReceiptA * TransportA).
Variable lzSendB : SendRequest -> TransportB -> option (ReceiptB * TransportB).
Variable combineA : Z -> Z -> bytes -> option bytes.
Variable newOptions : bytes.
Variable addOption : bytes -> Z -> Z -> bytes.
Variables thisA thisB : address.

(** X17.  A full round trip.  A serves from a ball [a] of at least 2;
    the message it hands to its transport, delivered to B, makes B set its
    ball to [a - 1], lower it to [a - 2] and send back the vanilla
    encoding of [a - 2] with A's return options; that reply, delivered to
    A, sets A's ball to [a - 2] and A sends nothing more.  Both ends
    finish on [a - 2], whatever B's ball was. *)
Theorem ping_pong_round_trip
    (wA : World (Transport := TransportA)) (wB : World (Transport := TransportB))
    msgA dst ro g opts c rcA tA'
    msgB originB guidB executorB extraB rcB tB'
    msgA2 originA guidA executorA extraA
    (Ha : 2 <= ball wA <= max_uint256) (Hro : len ro <= max_uint64)
    (Hg : 180000 + g <= max_uint128)
    (Hc : combineA dst ABA_TYPE (addOption newOptions (180000 + g) 0 ++ opts)
          = Some c)
    (HsA : lzSendA {| s_dstEid := dst;
                      s_message := encodeABA (ball wA - 1) ro;
                      s_options := c;
                      s_fee := {| nativeFee := msg_value msgA;
                                  lzTokenFee := 0 |};
                      s_refundAddress := msg_sender msgA |} (transport wA)
           = Some (rcA, tA'))
    (HsB : lzSendB (reply thisB msgB originB (ball wA - 1) ro) (transport wB)
           = Some (rcB, tB')) :
  let ping := encodeABA (ball wA - 1) ro in
  let pong := encode (ball wA - 2) in
  let oA := send lzSendA combineA newOptions addOption msgA dst ro g opts wA in
  let oB := _lzReceive lzSendB thisB msgB originB guidB ping executorB extraB
              wB in
  let oA2 := _lzReceive lzSendA thisA msgA2 originA guidA pong executorA
               extraA (commit wA oA) in
  map call_message (issued oA) = [ping]
  /\ issued oB
     = [CallSend {| s_dstEid := srcEid originB; s_message := pong;
                    s_options := ro;
                    s_fee := {| nativeFee := msg_value msgB;
                                lzTokenFee := 0 |};
                    s_refundAddress := thisB |}]
  /\ issued oA2 = []
  /\ ball (commit wB oB) = ball wA - 2
  /\ ball (commit (commit wA oA) oA2) = ball wA - 2.
Proof.
  intros ping pong oA oB oA2.
  assert (Hb : 1 <= ball wA) by lia.
  assert (HoA : oA = _) by
    exact (EngineMore.send_runs lzSendA combineA newOptions addOption
             wA msgA dst ro g opts c Hb Hg Hc).
  cbv zeta in HoA. rewrite HsA in HoA.
  assert (Hd : decodeABA ping = Ok (ball wA - 1, ABA_TYPE, ro))
    by (apply CodecFacts.decodeABA_encodeABA; [lia | assumption]).
  assert (HoB : oB = _) by
    exact (EngineFacts.receive_aba lzSendB thisB wB msgB originB guidB ping
             executorB extraB (ball wA - 1) ro Hd ltac:(lia)).
  rewrite HsB in HoB.
  assert (Hl : length pong = 32%nat) by apply EvmFacts.length_be_bytes.
  assert (Hp : be_value pong = ball wA - 2).
  { apply EvmFacts.be_value_word. unfold max_uint256, two256 in *. lia. }
  assert (HoA2 : oA2 = _) by
    exact (EngineFacts.receive_other lzSendA thisA (commit wA oA) msgA2
             originA guidA pong executorA extraA (be_value pong) 0 []
             (CodecFacts.decodeABA_word pong Hl) ltac:(discriminate)).
  unfold commit in HoA2 |- *.
  rewrite HoA2, HoB, HoA. cbn [issued result ball map call_message s_message].
  unfold reply. replace (ball wA - 1 - 1) with (ball wA - 2) by lia.
  repeat split; try reflexivity. exact Hp.
Qed.

(** X18.  A ball served at 1 is lost.  [send] from a ball of 1 completes
    and leaves the ball at 0, and the message it hands to the transport
    carries 0 under the ABA tag: every endpoint that is delivered it
    reverts on the reply decrement, sends nothing and keeps its state. *)
Theorem ball_served_at_one_is_lost
    (wA : World (Transport := TransportA)) msgA dst ro g opts c rcA tA'
    (Ha : ball wA = 1) (Hro : len ro <= max_uint64)
    (Hg : 180000 + g <= max_uint128)
    (Hc : combineA dst ABA_TYPE (addOption newOptions (180000 + g) 0 ++ opts)
          = Some c)
    (HsA : lzSendA {| s_dstEid := dst;
                      s_message := encodeABA 0 ro;
                      s_options := c;
                      s_fee := {| nativeFee := msg_value msgA;
                                  lzTokenFee := 0 |};
                      s_refundAddress := msg_sender msgA |} (transport wA)
           = Some (rcA, tA')) :
  let oA := send lzSendA combineA newOptions addOption msgA dst ro g opts wA in
  map call_message (issued oA) = [encodeABA 0 ro]
  /\ ball (commit wA oA) = 0
  /\ forall (wB : World (Transport := TransportB)) msgB originB guidB
            executorB extraB,
       let oB := _lzReceive lzSendB thisB msgB originB guidB (encodeABA 0 ro)
                   executorB extraB wB in
       oB = {| issued := []; result := Revert (Panic 0x11) |}
       /\ commit wB oB = wB.
Proof.
  intro oA.
  assert (HoA : oA = _) by
    exact (EngineMore.send_runs lzSendA combineA newOptions addOption
             wA msgA dst ro g opts c ltac:(lia) Hg Hc).
  cbv zeta in HoA. rewrite Ha in HoA. change (1 - 1) with 0 in HoA.
  rewrite HsA in HoA.
  assert (Hd : decodeABA (encodeABA 0 ro) = Ok (0, ABA_TYPE, ro)).
  { apply CodecFacts.decodeABA_encodeABA; [|assumption].
    vm_compute. split; discriminate. }
  split; [now rewrite HoA|]. split; [unfold commit; now rewrite HoA|].
  intros wB msgB originB guidB executorB extraB oB. subst oB. unfold commit.
  rewrite (EngineFacts.receive_aba_zero lzSendB thisB wB msgB originB guidB
             _ executorB extraB ro Hd).
  split; reflexivity.
Qed.

End RoundTrip.

(** ** The send task *)

Section TaskExtras.
Context {Transport Receipt : Type}.
Variable lzSend : SendRequest -> Transport -> option (Receipt * Transport).
Variable lzQuote : QuoteRequest -> Transport -> option MessagingFee.
Variable combine : Z -> Z -> bytes -> option bytes.
Variable newOptions : bytes.
Variable addOption : bytes -> Z -> Z -> bytes.
Variable sdkOptions : bytes.
Variable deployer : address.

Local Notation "'task'" :=
  (SendTask.sendFromEvm lzSend lzQuote combine newOptions addOption
     sdkOptions deployer).


End TaskExtras.

(** ** The decoding script *)

Module ScriptFacts.
Import DecodeLzMessage EvmFacts.

Lemma slice_at (pre w post : bytes) :
  slice (pre ++ w ++ post) (len pre) (len pre + len w) = w.
Proof.
  unfold slice, len.
  replace (Z.of_nat (length pre) + Z.of_nat (length w)
           - Z.of_nat (length pre)) with (Z.of_nat (length w)) by lia.
  rewrite !Nat2Z.id, skipn_app, skipn_all, Nat.sub_diag. cbn [skipn app].
  rewrite firstn_app, Nat.sub_diag, firstn_all. cbn [firstn].
  apply app_nil_r.
Qed.

Lemma BigNumber_from_nonempty (l : bytes) :
  (0 < length l)%nat -> BigNumber_from l = Some (be_value l).
Proof. destruct l; cbn [length]; [lia | reflexivity]. Qed.

(** The three head slots as the script cuts them. *)
Lemma head_slices (a b c rest : bytes) :
  length a = 32%nat -> length b = 32%nat -> length c = 32%nat ->
  let m := a ++ b ++ c ++ rest in
  slice m 0 32 = a /\ slice m 32 64 = b /\ slice m 64 96 = c.
Proof.
  intros Ha Hb Hc m. subst m. repeat split.
  - pose proof (slice_at [] a (b ++ c ++ rest)) as H.
    unfold len in H. rewrite Ha in H. exact H.
  - pose proof (slice_at a b (c ++ rest)) as H.
    unfold len in H. rewrite Ha, Hb in H. exact H.
  - pose proof (slice_at (a ++ b) c rest) as H.
    unfold len in H. rewrite length_app, Ha, Hb, Hc in H.
    rewrite <- !app_assoc in H. exact H.
Qed.

Lemma slice_app_l (l m : bytes) (a b : Z) :
  0 <= a <= b -> b <= len l -> slice (l ++ m) a b = slice l a b.
Proof.
  intros Hab Hb. unfold slice, len in *.
  rewrite skipn_app.
  replace (Z.to_nat a - length l)%nat with 0%nat by lia. cbn [skipn].
  rewrite firstn_app, length_skipn.
  replace (Z.to_nat (b - a) - (length l - Z.to_nat a))%nat with 0%nat by lia.
  cbn [firstn]. apply app_nil_r.
Qed.

Lemma length_slice (l : bytes) (a b : Z) :
  0 <= a <= b -> b <= len l -> len (slice l a b) = b - a.
Proof.
  intros Hab Hb. unfold slice, len in *.
  rewrite length_firstn, length_skipn. lia.
Qed.

Lemma BigNumber_from_slice (l m : bytes) (a b : Z) :
  0 <= a < b -> b <= len l ->
  BigNumber_from (slice (l ++ m) a b) = Some (be_value (slice l a b)).
Proof.
  intros Hab Hb. rewrite slice_app_l by lia.
  apply BigNumber_from_nonempty.
  pose proof (length_slice l a b ltac:(lia) Hb) as H. unfold len in H. lia.
Qed.

(** A packet with its 113 bytes of header: the script prints the header
    fields and goes on with the message behind them. *)
Lemma packet_entries (header m : bytes) :
  length header = 113%nat ->
  decodeEncodedPayload (header ++ m)
  = [Banner_structure; TotalLength (113 + len m);
     Version (nth_error header 0);
     SrcEid (be_value (slice header 1 5)); Sender (slice header 5 37);
     Nonce (be_value (slice header 37 45));
     DstEid (be_value (slice header 45 49));
     Receiver (slice header 49 81); Guid (slice header 81 113);
     Banner_remaining; MessageLength (len m); MessageHex (firstn 99 m)]
    ++ decodeAba m.
Proof.
  intro Hh. assert (Hl : len header = 113) by (unfold len; lia).
  unfold decodeEncodedPayload.
  rewrite !BigNumber_from_slice by lia. cbn [or_throw].
  rewrite !slice_app_l by lia.
  rewrite len_app, Hl.
  replace (skipn 113 (header ++ m)) with m
    by (rewrite <- Hh, skipn_app, skipn_all, Nat.sub_diag; reflexivity).
  replace (nth_error (header ++ m) 0) with (nth_error header 0)
    by (destruct header; [discriminate | reflexivity]).
  reflexivity.
Qed.

End ScriptFacts.

(** X20.  The decoding script does not get to the return options of a
    message [encodeABA] wrote.  On a packet of 113 header bytes followed
    by such a message it prints the header fields, reads the ball and the
    type 2 from the first two slots and the offset 96 from the third;
    96 is below the 128 it asks of an offset, so it reports an invalid
    offset and prints neither the length nor the bytes of the return
    options. *)
Theorem script_stops_at_the_offset (header : bytes) (v : Z) (r : bytes)
    (Hh : length header = 113%nat) (Hv : 0 <= v <= max_uint256) :
  DecodeLzMessage.decodeEncodedPayload (header ++ encodeABA v r)
  = [DecodeLzMessage.Banner_structure;
     DecodeLzMessage.TotalLength (113 + len (encodeABA v r));
     DecodeLzMessage.Version (nth_error header 0);
     DecodeLzMessage.SrcEid (be_value (DecodeLzMessage.slice header 1 5));
     DecodeLzMessage.Sender (DecodeLzMessage.slice header 5 37);
     DecodeLzMessage.Nonce (be_value (DecodeLzMessage.slice header 37 45));
     DecodeLzMessage.DstEid (be_value (DecodeLzMessage.slice header 45 49));
     DecodeLzMessage.Receiver (DecodeLzMessage.slice header 49 81);
     DecodeLzMessage.Guid (DecodeLzMessage.slice header 81 113);
     DecodeLzMessage.Banner_remaining;
     DecodeLzMessage.MessageLength (len (encodeABA v r));
     DecodeLzMessage.MessageHex (firstn 99 (encodeABA v r));
     DecodeLzMessage.Banner_decoding;
     DecodeLzMessage.Ball v; DecodeLzMessage.BallHex (encode v);
     DecodeLzMessage.MessageType 2; DecodeLzMessage.ExpectedType;
     DecodeLzMessage.ReturnOptionsOffset 96;
     DecodeLzMessage.InvalidOffset;
     DecodeLzMessage.InvalidOffset_offset 96;
     DecodeLzMessage.InvalidOffset_length (len (encodeABA v r))].
Proof.
  rewrite (ScriptFacts.packet_entries header (encodeABA v r) Hh).
  cbn [app]. do 12 f_equal.
  assert (H128 : 128 <= len (encodeABA v r)).
  { rewrite CodecFacts.len_encodeABA. pose proof (EvmFacts.len_nonneg r).
    Z.div_mod_to_equations. lia. }
  unfold DecodeLzMessage.decodeAba.
  destruct (Z.leb_spec 128 (len (encodeABA v r))) as [_|]; [|lia].
  generalize (len (encodeABA v r)). intro L.
  unfold encodeABA, Abi.encode_uint256_uint16_bytes, ABA_TYPE.
  destruct (ScriptFacts.head_slices (be_bytes 32 v) (be_bytes 32 2)
              (be_bytes 32 96)
              (be_bytes 32 (len r) ++ r ++ zeros (Abi.padding (length r)))
              (EvmFacts.length_be_bytes 32 v) (EvmFacts.length_be_bytes 32 2)
              (EvmFacts.length_be_bytes 32 96)) as (S0 & S1 & S2).
  cbv zeta in S0, S1, S2 |- *. rewrite S0, S1, S2.
  rewrite (ScriptFacts.BigNumber_from_nonempty (be_bytes 32 v))
    by (rewrite EvmFacts.length_be_bytes; lia).
  rewrite EvmFacts.be_value_word
    by (unfold max_uint256, two256 in *; lia).
  change (DecodeLzMessage.BigNumber_from
            (DecodeLzMessage.slice (be_bytes 32 2) 30 32)) with (Some 2).
  change (DecodeLzMessage.BigNumber_from
            (DecodeLzMessage.slice (be_bytes 32 96) 24 32)) with (Some 96).
  reflexivity.
Qed.

(** ** The properties above on the sample endpoint *)

Lemma send_completes_witness :
  let w := Sample.world 5 in
  let c := [x00; x03; x01; x00; x11; x01] ++ be_bytes 16 230000 in
  1 <= ball w /\ 180000 + 50000 <= max_uint128
  /\ result (Sample.send 10 Sample.caller 40161 [] 50000 [] w)
     = Ok (1, {| ball := 4; events := [BallServed 7 40161 5 4];
                 transport := 1 |}).
Proof.
  intros w c.
  assert (Hb : 1 <= ball w) by (vm_compute; discriminate).
  assert (Hg : 180000 + 50000 <= max_uint128) by (vm_compute; discriminate).
  split; [exact Hb|]. split; [exact Hg|].
  exact (send_completes (Sample.lzSend 10) Sample.combineOptions
           Sample.newOptions Sample.addExecutorLzReceiveOption w Sample.caller
           40161 [] 50000 [] c 1 1 Hb Hg eq_refl eq_refl).
Defined.

Lemma receive_vanilla_witness :
  let payload := repeat xff 32 in
  length payload = 32%nat
  /\ Sample._lzReceive 10 Sample.caller Sample.origin [] payload 9 []
       (Sample.world 5)
     = {| issued := [];
          result := Ok (tt, {| ball := be_value payload;
                               events := [] ++ [BallReceived 9 5
                                                  (be_value payload)];
                               transport := 0 |}) |}.
Proof.
  intro payload.
  assert (H : length payload = 32%nat) by reflexivity.
  split; [exact H|].
  exact (receive_vanilla (Sample.lzSend 10) Sample.this (Sample.world 5)
           Sample.caller Sample.origin [] payload 9 [] H).
Defined.

Lemma receive_malformed_witness :
  let payload : bytes := [] in
  let w := Sample.world 5 in
  let o := Sample._lzReceive 10 Sample.caller Sample.origin [] payload 9 []
             w in
  len payload <> 32 /\ len payload < 96
  /\ issued o = [] /\ (exists e, result o = Revert e) /\ commit w o = w.
Proof.
  intros payload w o.
  assert (H1 : len payload <> 32) by (vm_compute; discriminate).
  assert (H2 : len payload < 96) by (vm_compute; reflexivity).
  split; [exact H1|]. split; [exact H2|].
  exact (receive_malformed (Sample.lzSend 10) Sample.this w Sample.caller
           Sample.origin [] payload 9 [] H1 (or_introl H2)).
Defined.

Lemma ball_stays_uint256_witness :
  let w := Sample.world 1 in
  let txs := [Chain.TxSend Sample.caller 40161 [] 50000 [];
              Chain.TxSend Sample.caller 40161 [] 50000 [];
              Chain.TxLzReceive Sample.caller Sample.origin []
                (repeat xff 32) 9 [];
              Chain.TxLzReceive Sample.caller Sample.origin []
                (encodeABA 0 []) 9 []] in
  Chain.ball_in_range w
  /\ Chain.ball_in_range
       (Chain.run_txs (Sample.lzSend 10) Sample.combineOptions
          Sample.newOptions Sample.addExecutorLzReceiveOption Sample.this
          txs w).
Proof.
  intros w txs.
  assert (H : Chain.ball_in_range w) by (vm_compute; split; discriminate).
  split; [exact H|].
  exact (ball_stays_uint256 (Sample.lzSend 10) Sample.combineOptions
           Sample.newOptions Sample.addExecutorLzReceiveOption Sample.this
           txs w H).
Defined.

Lemma sends_lower_the_ball_witness :
  let w := Sample.world 1 in
  let tx := Chain.TxSend Sample.caller 40161 [] 50000 [] in
  let txs := [tx; tx; tx] in
  let w' := Chain.run_txs (Sample.lzSend 10) Sample.combineOptions
              Sample.newOptions Sample.addExecutorLzReceiveOption Sample.this
              txs w in
  (forall tx', In tx' txs ->
     exists msg d ro g opts, tx' = Chain.TxSend msg d ro g opts)
  /\ ball w - Z.of_nat (length txs) <= ball w' <= ball w.
Proof.
  intros w tx txs w'.
  assert (H : forall tx', In tx' txs ->
            exists msg d ro g opts, tx' = Chain.TxSend msg d ro g opts).
  { intros tx' [<-|[<-|[<-|[]]]];
      exists Sample.caller, 40161, [], 50000, []; reflexivity. }
  split; [exact H|].
  exact (sends_lower_the_ball (Sample.lzSend 10) Sample.combineOptions
           Sample.newOptions Sample.addExecutorLzReceiveOption Sample.this
           txs w H).
Defined.

Lemma reply_is_not_answered_witness :
  let payload := encodeABA 100 [x00; x03] in
  let req := reply Sample.this Sample.caller Sample.origin 100 [x00; x03] in
  let o2 := Sample._lzReceive 10 Sample.underpaid Sample.origin []
              (s_message req) 9 [] (Sample.world 7) in
  In (CallSend req)
    (issued (Sample._lzReceive 10 Sample.caller Sample.origin [] payload 9 []
               (Sample.world 5)))
  /\ length (s_message req) = 32%nat
  /\ issued o2 = []
  /\ result o2
     = Ok (tt, {| ball := be_value (s_message req);
                  events := [] ++ [BallReceived 9 7
                                     (be_value (s_message req))];
                  transport := 0 |}).
Proof.
  intros payload req o2.
  assert (H : In (CallSend req)
                (issued (Sample._lzReceive 10 Sample.caller Sample.origin []
                           payload 9 [] (Sample.world 5))))
    by (left; reflexivity).
  split; [exact H|].
  destruct (reply_is_not_answered (Sample.lzSend 10) Sample.this
              (Sample.world 5) Sample.caller Sample.origin [] payload 9 []
              req H) as [Hl Hr].
  split; [exact Hl|].
  exact (Hr (Sample.world 7) Sample.underpaid Sample.origin [] 9 []).
Defined.

Lemma quote_result_witness :
  let w := Sample.world 5 in
  let fee := {| nativeFee := 10; lzTokenFee := 0 |} in
  result (Sample.quote 10 40161 [] 50000 [] false w) = Ok (fee, w)
  /\ 1 <= ball w /\ 180000 + 50000 <= max_uint128.
Proof.
  intros w fee.
  assert (H : result (Sample.quote 10 40161 [] 50000 [] false w)
              = Ok (fee, w)) by reflexivity.
  split; [exact H|].
  destruct (proj1 (quote_result (Sample.lzQuote 10) Sample.combineOptions
                     Sample.newOptions Sample.addExecutorLzReceiveOption
                     w 40161 [] 50000 [] false fee w) H)
    as (_ & Hb & Hg & _).
  split; [exact Hb | exact Hg].
Defined.

Lemma ping_pong_round_trip_witness :
  let wA := Sample.world 100 in
  let wB := Sample.world 3 in
  let ro := [x00; x03] in
  let ping := encodeABA 99 ro in
  let pong := encode 98 in
  let oA := Sample.send 10 Sample.caller 40168 ro 50000 [] wA in
  let oB := Sample._lzReceive 10 Sample.caller Sample.origin [] ping 9 []
              wB in
  let oA2 := Sample._lzReceive 10 Sample.caller Sample.origin [] pong 9 []
               (commit wA oA) in
  (2 <= ball wA <= max_uint256) /\ len ro <= max_uint64
  /\ 180000 + 50000 <= max_uint128
  /\ map call_message (issued oA) = [ping]
  /\ map call_message (issued oB) = [pong]
  /\ issued oA2 = []
  /\ ball (commit wB oB) = 98
  /\ ball (commit (commit wA oA) oA2) = 98.
Proof.
  intros wA wB ro ping pong oA oB oA2.
  assert (Ha : 2 <= ball wA <= max_uint256)
    by (vm_compute; split; discriminate).
  assert (Hro : len ro <= max_uint64) by (vm_compute; discriminate).
  assert (Hg : 180000 + 50000 <= max_uint128) by (vm_compute; discriminate).
  split; [exact Ha|]. split; [exact Hro|]. split; [exact Hg|].
  destruct (ping_pong_round_trip (Sample.lzSend 10) (Sample.lzSend 10)
              Sample.combineOptions Sample.newOptions
              Sample.addExecutorLzReceiveOption Sample.this Sample.this
              wA wB Sample.caller 40168 ro 50000 []
              ([x00; x03; x01; x00; x11; x01] ++ be_bytes 16 230000) 1 1
              Sample.caller Sample.origin [] 9 [] 1 1
              Sample.caller Sample.origin [] 9 []
              Ha Hro Hg eq_refl eq_refl eq_refl)
    as (H1 & H2 & H3 & H4 & H5).
  split; [exact H1|].
  split; [exact (f_equal (map call_message) H2)|].
  split; [exact H3|]. split; [exact H4 | exact H5].
Defined.

Lemma ball_served_at_one_is_lost_witness :
  let wA := Sample.world 1 in
  let ro := [x00; x03] in
  let oA := Sample.send 10 Sample.caller 40168 ro 50000 [] wA in
  let oB := Sample._lzReceive 10 Sample.caller Sample.origin []
              (encodeABA 0 ro) 9 [] (Sample.world 3) in
  ball wA = 1 /\ len ro <= max_uint64 /\ 180000 + 50000 <= max_uint128
  /\ map call_message (issued oA) = [encodeABA 0 ro]
  /\ ball (commit wA oA) = 0
  /\ oB = {| issued := []; result := Revert (Panic 0x11) |}
  /\ commit (Sample.world 3) oB = Sample.world 3.
Proof.
  intros wA ro oA oB.
  assert (Ha : ball wA = 1) by reflexivity.
  assert (Hro : len ro <= max_uint64) by (vm_compute; discriminate).
  assert (Hg : 180000 + 50000 <= max_uint128) by (vm_compute; discriminate).
  split; [exact Ha|]. split; [exact Hro|]. split; [exact Hg|].
  destruct (ball_served_at_one_is_lost (Sample.lzSend 10) (Sample.lzSend 10)
              Sample.combineOptions Sample.newOptions
              Sample.addExecutorLzReceiveOption Sample.this
              wA Sample.caller 40168 ro 50000 []
              ([x00; x03; x01; x00; x11; x01] ++ be_bytes 16 230000) 1 1
              Ha Hro Hg eq_refl eq_refl)
    as (H1 & H2 & H3).
  split; [exact H1|]. split; [exact H2|].
  exact (H3 (Sample.world 3) Sample.caller Sample.origin [] 9 []).
Defined.


Lemma script_stops_at_the_offset_witness :
  let header := repeat x01 113 in
  length header = 113%nat /\ (0 <= 5 <= max_uint256)
  /\ In DecodeLzMessage.InvalidOffset
       (DecodeLzMessage.decodeEncodedPayload
          (header ++ encodeABA 5 [x00; x03])).
Proof.
  intro header.
  assert (Hh : length header = 113%nat) by reflexivity.
  assert (Hv : 0 <= 5 <= max_uint256) by (vm_compute; split; discriminate).
  split; [exact Hh|]. split; [exact Hv|].
  rewrite (script_stops_at_the_offset header 5 [x00; x03] Hh Hv).
  do 18 right. left. reflexivity.
Defined.
